(** * get_urls.py: a bulk URL downloader

    A shallow embedding of [src/get_urls.py] and of the parts of its
    libraries ([requests], [urllib3], the file system and [logging]) that
    the function [download] and the tail of [main] drive.

    Everything the script touches lives in one explicit [World]: the file
    system, the working directory, the heap of [requests.Session] objects,
    the lines handed to [logging], what was written to [sys.stdout], and the
    network (an oracle for the remote side together with the trace of the
    requests that were sent).  Python code that can raise is a computation in
    the state-and-exception monad [M].

    What the embedding leaves out: wall-clock time (the back-off sleeps) and
    threads (the executor runs each submitted task to completion, in
    submission order).  Text is ASCII: a file with other bytes is a file
    [open(path, "r")] cannot decode.  Of a response the embedding keeps the
    status, the body, whether the body arrives whole, the [Location] header
    and the presence of [Retry-After]. *)

From Stdlib Require Import ZArith QArith String Ascii List Lia.
From stdpp Require Import base tactics option list gmap strings pretty.
Import ListNotations.
Local Open Scope string_scope.
Local Open Scope Z_scope.

(** ** Python exceptions and results *)

(** The exception classes that can travel through [download] and [main].
    [MaxRetryError] is urllib3's; [requests] translates it (see
    [adapter_send]).  [RecursionError] is what a Python recursion that never
    bottoms out ends in; [urlopen_result] shows that the retry loop never
    gets there. *)
Inductive Reason := ProtocolError | ResponseError.

Inductive Exn :=
  | MaxRetryError (reason : Reason)
  | ConnectionError
  | RetryError
  | InvalidSchema
  | TooManyRedirects
  | ChunkedEncodingError
  | AttributeError
  | IndexError
  | ValueError
  | UnicodeDecodeError
  | FileNotFoundError
  | IsADirectoryError
  | OSError
  | RecursionError
  | SystemExit (code : Z).

Inductive Result (A : Type) :=
  | Ok (a : A)
  | Raise (e : Exn).
Arguments Ok {A} a.
Arguments Raise {A} e.

Definition Reason_eqb (a b : Reason) : bool :=
  match a, b with
  | ProtocolError, ProtocolError | ResponseError, ResponseError => true
  | _, _ => false
  end.

(** [isinstance(e, cls)] for the classes above.  [FileNotFoundError] and
    [IsADirectoryError] are subclasses of [OSError] in Python; [OSError]
    stands here for the error of a file name that is too long, and the only
    class a handler names in the script is [ConnectionError], which none of
    the others is a subclass of. *)
Definition Exn_eqb (a b : Exn) : bool :=
  match a, b with
  | MaxRetryError r, MaxRetryError r' => Reason_eqb r r'
  | ConnectionError, ConnectionError
  | RetryError, RetryError
  | InvalidSchema, InvalidSchema
  | TooManyRedirects, TooManyRedirects
  | ChunkedEncodingError, ChunkedEncodingError
  | AttributeError, AttributeError
  | IndexError, IndexError
  | ValueError, ValueError
  | UnicodeDecodeError, UnicodeDecodeError
  | FileNotFoundError, FileNotFoundError
  | IsADirectoryError, IsADirectoryError
  | OSError, OSError
  | RecursionError, RecursionError => true
  | SystemExit c, SystemExit c' => c =? c'
  | _, _ => false
  end.

(** ** Data *)

(** An HTTP response as [download] reads it, [response.status_code] and
    [response.content], and what the libraries look at on the way:
    [retry_after] tells whether the [Retry-After] header is present (for
    urllib3); [location] is the [Location] header, if there is one, as the
    URL [requests] makes of it (joined with the URL of the request; empty
    when the header is empty); [truncated] tells that the body breaks off
    before its end, so that reading it fails. *)
Record Response := mkResponse {
  status_code : Z;
  content : string;
  retry_after : bool;
  location : option string;
  truncated : bool
}.

(** One network exchange: the connection breaks, or the server answers. *)
Inductive Attempt :=
  | ConnFail
  | Answer (response : Response).

(** [urllib3.util.retry.Retry], with the three settings [download] passes.
    The other counters ([connect], [read], [redirect], [status], [other])
    keep their default [None] and so never take part in [is_exhausted]. *)
Module urllib3.

Record Retry := mkRetry {
  total : Z;
  backoff_factor : Q;
  status_forcelist : list Z
}.

Definition RETRY_AFTER_STATUS_CODES : list Z := [413; 429; 503].

(** [x in xs] on integers. *)
Definition mem (x : Z) (xs : list Z) : bool := existsb (Z.eqb x) xs.

(** [Retry.is_retry(method, status_code, has_retry_after)] for the method
    GET, which is in [allowed_methods];
    [respect_retry_after_header] keeps its default [True].  A Python
    integer is truthy when it is not zero, a sequence when it is not
    empty. *)
Definition is_retry (self : Retry) (status : Z) (has_retry_after : bool) : bool :=
  if negb (Nat.eqb (length (status_forcelist self)) 0)
     && mem status (status_forcelist self)
  then true
  else negb (total self =? 0) && has_retry_after
       && mem status RETRY_AFTER_STATUS_CODES.

(** [Retry.is_exhausted]: the falsy counters ([None] and [0]) are filtered
    out; exhausted when the least remaining one is negative. *)
Definition is_exhausted (self : Retry) : bool :=
  let retry_counts := List.filter (fun c => negb (c =? 0)) [total self] in
  match retry_counts with
  | [] => false
  | c :: cs => fold_left Z.min cs c <? 0
  end.

(** [Retry.increment]: one unit is taken from [total]; the new policy is
    returned unless it is exhausted, in which case [MaxRetryError] is
    raised with the reason given ([error or ResponseError(cause)]). *)
Definition increment (self : Retry) (reason : Reason) : Result Retry :=
  let new_retry :=
    {| total := total self - 1;
       backoff_factor := backoff_factor self;
       status_forcelist := status_forcelist self |} in
  if is_exhausted new_retry then Raise (MaxRetryError reason)
  else Ok new_retry.

End urllib3.
Import urllib3.

(** [requests.adapters.HTTPAdapter] and [requests.Session]: the session owns
    an ordered table from URL prefix to adapter ([session.adapters]). *)
Record HTTPAdapter := mkHTTPAdapter { max_retries : Retry }.

Record Session := mkSession { adapters : list (string * HTTPAdapter) }.

(** A file-system entry; paths are absolute strings. *)
Inductive Entry :=
  | File (data : string)
  | Dir.

(** What [logging.info] and [logging.error] hand to the root logger. *)
Inductive Level := INFO | ERROR.

Definition LogRecord : Type := Level * string.

(** ** The world *)

Record World := mkWorld {
  fs : gmap string Entry;          (** absolute path -> entry *)
  cwd : string;                    (** working directory of the process *)
  sessions : gmap nat Session;     (** the Session objects, by reference *)
  log : list LogRecord;            (** records given to [logging], oldest first *)
  stdout : list string;            (** chunks written to [sys.stdout] *)
  network : nat -> string -> Attempt;
                                   (** the remote side: what the [n]-th request
                                       of the run, for this URL, meets *)
  wire : list string               (** URLs requested so far, oldest first *)
}.

Definition set_fs (f : gmap string Entry -> gmap string Entry) (w : World) : World :=
  mkWorld (f (fs w)) (cwd w) (sessions w) (log w) (stdout w) (network w) (wire w).
Definition set_sessions (f : gmap nat Session -> gmap nat Session) (w : World) : World :=
  mkWorld (fs w) (cwd w) (f (sessions w)) (log w) (stdout w) (network w) (wire w).
Definition set_log (f : list LogRecord -> list LogRecord) (w : World) : World :=
  mkWorld (fs w) (cwd w) (sessions w) (f (log w)) (stdout w) (network w) (wire w).
Definition set_stdout (f : list string -> list string) (w : World) : World :=
  mkWorld (fs w) (cwd w) (sessions w) (log w) (f (stdout w)) (network w) (wire w).
Definition set_wire (f : list string -> list string) (w : World) : World :=
  mkWorld (fs w) (cwd w) (sessions w) (log w) (stdout w) (network w) (f (wire w)).

(** ** The monad of Python statements *)

Definition M (A : Type) : Type := World -> Result A * World.

Definition ret {A} (a : A) : M A := fun w => (Ok a, w).

Definition raise {A} (e : Exn) : M A := fun w => (Raise e, w).

Definition bind {A B} (m : M A) (k : A -> M B) : M B :=
  fun w =>
    match m w with
    | (Ok a, w') => k a w'
    | (Raise e, w') => (Raise e, w')
    end.

Notation "x <- m ;; k" := (bind m (fun x => k))
  (at level 100, m at next level, right associativity).
Notation "m ;;; k" := (bind m (fun _ => k))
  (at level 100, right associativity).

(** [try: m except cls: handler] *)
Definition try_except {A} (m : M A) (cls : Exn) (handler : M A) : M A :=
  fun w =>
    match m w with
    | (Ok a, w') => (Ok a, w')
    | (Raise e, w') => if Exn_eqb e cls then handler w' else (Raise e, w')
    end.

(** A pure computation that may raise, run as a statement. *)
Definition lift {A} (r : Result A) : M A := fun w => (r, w).

(** ** Python built-ins on strings *)

Definition slash : ascii := "/"%char.

(** [c.lower()] on one ASCII character. *)
Definition lower_ascii (c : ascii) : ascii :=
  let n := nat_of_ascii c in
  if (65 <=? n)%nat && (n <=? 90)%nat then ascii_of_nat (n + 32) else c.

(** [s.lower()] *)
Fixpoint lower (s : string) : string :=
  match s with
  | EmptyString => EmptyString
  | String c s' => String (lower_ascii c) (lower s')
  end.

(** [s.startswith(p)] *)
Definition startswith (s p : string) : bool := String.prefix p s.

(** The last occurrence of [sep] in [s]: what stands before it and what
    stands after it; [None] when [sep] does not occur. *)
Fixpoint rpartition (sep : ascii) (s : string) : option (string * string) :=
  match s with
  | EmptyString => None
  | String c s' =>
      match rpartition sep s' with
      | Some (before, after) => Some (String c before, after)
      | None => if Ascii.eqb c sep then Some (EmptyString, s') else None
      end
  end.

(** [s.rsplit(sep, 1)] for a one-character separator. *)
Definition rsplit (s : string) (sep : ascii) : list string :=
  match rpartition sep s with
  | Some (before, after) => [before; after]
  | None => [s]
  end.

(** [xs[i]] on a list: [IndexError] out of range. *)
Definition getitem {A} (xs : list A) (i : nat) : Result A :=
  match nth_error xs i with
  | Some x => Ok x
  | None => Raise IndexError
  end.

(** The line boundaries of [str.splitlines] among the ASCII characters; the
    other boundaries (U+0085, U+2028, U+2029) are not ASCII and so do not
    occur in the text [read_text] returns. *)
Definition is_linebreak (c : ascii) : bool :=
  let n := nat_of_ascii c in
  (n =? 10)%nat || (n =? 11)%nat || (n =? 12)%nat || (n =? 13)%nat
  || (n =? 28)%nat || (n =? 29)%nat || (n =? 30)%nat.

(** [s.splitlines()]: [cur] is the line being read, last character first.
    A carriage return followed by a line feed is one boundary; there is no
    empty last line. *)
Fixpoint splitlines_from (cur : list ascii) (s : string) : list string :=
  match s with
  | EmptyString =>
      match cur with
      | [] => []
      | _ => [string_of_list_ascii (rev cur)]
      end
  | String c s' =>
      if is_linebreak c then
        string_of_list_ascii (rev cur) ::
        match s' with
        | String c' s'' =>
            if (nat_of_ascii c =? 13)%nat && (nat_of_ascii c' =? 10)%nat
            then splitlines_from [] s''
            else splitlines_from [] s'
        | EmptyString => []
        end
      else splitlines_from (c :: cur) s'
  end.

Definition splitlines (s : string) : list string := splitlines_from [] s.

(** [s.isascii()] *)
Fixpoint isascii (s : string) : bool :=
  match s with
  | EmptyString => true
  | String c s' => (nat_of_ascii c <? 128)%nat && isascii s'
  end.

(** Whether the null character occurs in [s]. *)
Fixpoint has_null (s : string) : bool :=
  match s with
  | EmptyString => false
  | String c s' => (nat_of_ascii c =? 0)%nat || has_null s'
  end.

(** ** logging and sys.stdout *)

Definition logging_error (msg : string) : M unit :=
  fun w => (Ok tt, set_log (fun l => (l ++ [(ERROR, msg)])%list) w).

Definition logging_info (msg : string) : M unit :=
  fun w => (Ok tt, set_log (fun l => (l ++ [(INFO, msg)])%list) w).

Definition sys_stdout_write (chunk : string) : M unit :=
  fun w => (Ok tt, set_stdout (fun l => (l ++ [chunk])%list) w).

Definition sys_exit {A} (code : Z) : M A := raise (SystemExit code).

(** ** The file system *)

(** A relative path is taken from the working directory. *)
Definition resolve (w : World) (path : string) : string :=
  if startswith path "/" then path else cwd w +:+ "/" +:+ path.

(** The directory an absolute path lies in. *)
Definition dirname (path : string) : string :=
  match rpartition slash path with
  | Some (EmptyString, _) => "/"
  | Some (before, _) => before
  | None => EmptyString
  end.

(** [os.path.exists(path)], for a path that names its entry directly: no
    [.] or [..] component, no doubled or trailing slash, no link on the
    way. *)
Definition os_path_exists (path : string) : M bool :=
  fun w =>
    (Ok (if String.eqb path "" then false
         else bool_decide (is_Some (fs w !! resolve w path))), w).

(** The longest name a directory entry can have, in bytes. *)
Definition NAME_MAX : nat := 255.

(** The last component of a path. *)
Definition basename (path : string) : string :=
  match rpartition slash path with
  | Some (_, name) => name
  | None => path
  end.

(** [open(path, "wb")]: a null character in the path gives [ValueError]; the
    empty path and a path whose directory is missing give
    [FileNotFoundError]; a name longer than [NAME_MAX] gives [OSError]; a
    directory ([.] and [..] among them) gives [IsADirectoryError]; otherwise
    the file is created or emptied.  The handle is the absolute path. *)
Definition open_wb (path : string) : M string :=
  fun w =>
    if has_null path then (Raise ValueError, w)
    else if String.eqb path "" then (Raise FileNotFoundError, w)
    else if String.eqb path "." || String.eqb path ".." then (Raise IsADirectoryError, w)
    else
      let p := resolve w path in
      match fs w !! dirname p with
      | Some Dir =>
          if (NAME_MAX <? String.length (basename path))%nat then (Raise OSError, w)
          else
            match fs w !! p with
            | Some Dir => (Raise IsADirectoryError, w)
            | _ => (Ok p, set_fs (fun m => <[p := File ""]> m) w)
            end
      | _ => (Raise FileNotFoundError, w)
      end.

(** [f.write(data)] on a handle just opened with ["wb"], then the close that
    ends the [with] block. *)
Definition file_write (handle : string) (data : string) : M unit :=
  fun w => (Ok tt, set_fs (fun m => <[handle := File data]> m) w).

(** [open(path, "r")] followed by [f.read()].  The bytes of the file are
    decoded as ASCII text; a byte outside ASCII gives [UnicodeDecodeError]
    (what another codec would make of such bytes is text this embedding has
    no strings for).  The newline translation of text mode is left to
    [splitlines], which sees the same line boundaries with and without
    it. *)
Definition read_text (path : string) : M string :=
  fun w =>
    if String.eqb path "" then (Raise FileNotFoundError, w)
    else
      match fs w !! resolve w path with
      | Some (File data) =>
          if isascii data then (Ok data, w) else (Raise UnicodeDecodeError, w)
      | Some Dir => (Raise IsADirectoryError, w)
      | None => (Raise FileNotFoundError, w)
      end.

(** ** urllib3: one request, and the retry loop around it *)

(** Send the request: the network decides what comes back, and the URL is
    added to the trace. *)
Definition make_request (url : string) : M Attempt :=
  fun w => (Ok (network w (length (wire w)) url), set_wire (fun t => (t ++ [url])%list) w).

(** [HTTPConnectionPool.urlopen(method, url, retries=retries,
    redirect=False)], the way [requests] calls it.  A broken connection and a
    response that [is_retry] selects both go through [increment]; when the
    policy is exhausted [MaxRetryError] is raised ([raise_on_status] keeps its
    default [True]); otherwise the call is repeated with the new policy.
    [fuel] bounds the depth of the recursion. *)
Fixpoint urlopen_loop (fuel : nat) (url : string) (retries : Retry) : M Response :=
  match fuel with
  | O => raise RecursionError
  | S fuel' =>
      a <- make_request url ;;
      match a with
      | ConnFail =>
          retries' <- lift (increment retries ProtocolError) ;;
          urlopen_loop fuel' url retries'
      | Answer response =>
          if is_retry retries (status_code response) (retry_after response) then
            retries' <- lift (increment retries ResponseError) ;;
            urlopen_loop fuel' url retries'
          else ret response
      end
  end.

(** The recursion is at most one deeper than the retries that are left. *)
Definition urlopen (url : string) (retries : Retry) : M Response :=
  urlopen_loop (S (Z.to_nat (total retries))) url retries.

(** ** requests: adapters and sessions *)

(** [HTTPAdapter.send]: urllib3's [MaxRetryError] becomes [RetryError] when
    its reason is a [ResponseError], and [ConnectionError] otherwise. *)
Definition adapter_send (adapter : HTTPAdapter) (url : string) : M Response :=
  fun w =>
    match urlopen url (max_retries adapter) w with
    | (Raise (MaxRetryError ResponseError), w') => (Raise RetryError, w')
    | (Raise (MaxRetryError ProtocolError), w') => (Raise ConnectionError, w')
    | r => r
    end.

(** [d[k] = v] on an ordered dictionary: in place when the key is there, at
    the end when it is new. *)
Fixpoint dict_set {V} (k : string) (v : V) (d : list (string * V)) : list (string * V) :=
  match d with
  | [] => [(k, v)]
  | (k', v') :: d' =>
      if String.eqb k' k then (k, v) :: d' else (k', v') :: dict_set k v d'
  end.

(** [Session.mount(prefix, adapter)]: the adapter is stored under the prefix,
    then every shorter prefix is moved to the end. *)
Definition mount (prefix : string) (adapter : HTTPAdapter) (self : Session) : Session :=
  let d := dict_set prefix adapter (adapters self) in
  let shorter (kv : string * HTTPAdapter) :=
    (String.length (fst kv) <? String.length prefix)%nat in
  {| adapters := (List.filter (fun kv => negb (shorter kv)) d ++ List.filter shorter d)%list |}.

(** [HTTPAdapter()]: [max_retries] defaults to no retry at all. *)
Definition HTTPAdapter_default : HTTPAdapter :=
  {| max_retries := {| total := 0; backoff_factor := 0%Q; status_forcelist := [] |} |}.

(** The state of a fresh [requests.Session()]. *)
Definition Session_init : Session :=
  mount "http://" HTTPAdapter_default
    (mount "https://" HTTPAdapter_default {| adapters := [] |}).

(** [Session.get_adapter(url)]: the first mounted prefix the lower-cased URL
    starts with. *)
Fixpoint find_adapter (url : string) (d : list (string * HTTPAdapter)) : Result HTTPAdapter :=
  match d with
  | [] => Raise InvalidSchema
  | (prefix, adapter) :: d' =>
      if startswith (lower url) (lower prefix) then Ok adapter
      else find_adapter url d'
  end.

Definition get_adapter (self : Session) (url : string) : Result HTTPAdapter :=
  find_adapter url (adapters self).

(** A session is held by reference; [None] is Python's [None], on which any
    attribute access raises [AttributeError]. *)
Definition deref (session : option nat) : M Session :=
  fun w =>
    match session with
    | Some l =>
        match sessions w !! l with
        | Some s => (Ok s, w)
        | None => (Raise AttributeError, w)
        end
    | None => (Raise AttributeError, w)
    end.

(** [requests.Session()]: a new object at a fresh reference. *)
Definition Session_new : M (option nat) :=
  fun w =>
    let l := fresh (dom (sessions w)) in
    (Ok (Some l), set_sessions (fun h => <[l := Session_init]> h) w).

(** [session.mount(prefix, adapter)] *)
Definition Session_mount (session : option nat) (prefix : string) (adapter : HTTPAdapter) : M unit :=
  self <- deref session ;;
  fun w =>
    match session with
    | Some l => (Ok tt, set_sessions (fun h => <[l := mount prefix adapter self]> h) w)
    | None => (Raise AttributeError, w)
    end.

(** The statuses of a redirect [requests] follows, and how many of them it
    follows for one request. *)
Definition REDIRECT_STATI : list Z := [301; 302; 303; 307; 308].

Definition DEFAULT_REDIRECT_LIMIT : nat := 30.

(** [Session.get_redirect_target(resp)]: the target of a response that
    [is_redirect]; the loop that follows it stops at an empty target. *)
Definition get_redirect_target (resp : Response) : option string :=
  if mem (status_code resp) REDIRECT_STATI then
    match location resp with
    | Some url => if String.eqb url "" then None else Some url
    | None => None
    end
  else None.

(** [Session.send(request, allow_redirects=False)] for the request of one
    redirect: the adapter mounted for the URL sends it, then the body is
    read ([stream] is [False]), which fails on a body that breaks off. *)
Definition Session_send (self : Session) (url : string) : M Response :=
  adapter <- lift (get_adapter self url) ;;
  r <- adapter_send adapter url ;;
  if truncated r then raise ChunkedEncodingError else ret r.

(** [Session.resolve_redirects]: as long as the response has a target, and
    no more than [budget] times, the target is requested; the body of the
    response that redirects is dropped, whole or not. *)
Fixpoint resolve_redirects (budget : nat) (self : Session) (resp : Response) : M Response :=
  match get_redirect_target resp with
  | None => ret resp
  | Some url =>
      match budget with
      | O => raise TooManyRedirects
      | S budget' =>
          resp' <- Session_send self url ;;
          resolve_redirects budget' self resp'
      end
  end.

(** [session.get(url)], that is [Session.send] with [allow_redirects=True]:
    the adapter mounted for the URL sends the request, the redirects are
    followed, and the body of a response that was not a redirect is read.
    A URL no adapter is mounted for raises; [requests] has several classes
    for that, according to what is wrong with the URL, all of them outside
    [ConnectionError]; they are one class, [InvalidSchema], here. *)
Definition Session_get (session : option nat) (url : string) : M Response :=
  self <- deref session ;;
  adapter <- lift (get_adapter self url) ;;
  r <- adapter_send adapter url ;;
  match get_redirect_target r with
  | None => if truncated r then raise ChunkedEncodingError else ret r
  | Some _ => resolve_redirects DEFAULT_REDIRECT_LIMIT self r
  end.

(** ** The script *)

Section get_urls.

(** [validators.url], read for its truth value: [True], or a falsy
    [ValidationFailure]. *)
Variable validators_url : string -> bool.

(** The keys of the table [requests.status_codes._codes], in its order. *)
Variable status_codes : list Z.

Definition script_name : string := "get_urls.py".

(** settings for threads and requests *)
Definition MAX_THREADS : Z := 100.
Definition MAX_RETRY_FOR_SESSION : Z := 5.
Definition BACK_OFF_FACTOR : Q := (1 # 2)%Q.
Definition SPECIAL_ERROR_CODES : list Z := [403; 404].
Definition ERROR_CODES : list Z :=
  List.filter (fun code => (400 <=? code) && negb (mem code SPECIAL_ERROR_CODES))
    status_codes.

Definition help_message : string :=
  "
    " +:+ script_name +:+ " -i <input_file> -d <download_directory>

    Downloads a list of URLs from a simple text file into a specified directory.

    -i input_file
    --ifile input_file
        Required - it is the file containing URLs to download.

    -d download_directory
    --directory download_directory
        Required - it is the directory for download destination.

    -h 
    --help 
        print this message

".

Definition print_help : M unit := logging_info help_message.

(** [option in self.required_options] *)
Definition str_mem (x : string) (xs : list string) : bool :=
  existsb (String.eqb x) xs.

(** [list.remove(x)] for an [x] known to occur: the first occurrence goes. *)
Fixpoint list_remove (x : string) (xs : list string) : list string :=
  match xs with
  | [] => []
  | y :: ys => if String.eqb y x then ys else y :: list_remove x ys
  end.

(** class RequiredOptions, as the list it keeps. *)
Definition RequiredOptions_add (option : string) (required_options : list string) : list string :=
  if negb (str_mem option required_options)
  then (required_options ++ [option])%list
  else required_options.

Definition RequiredOptions_resolve (option : string) (required_options : list string) : list string :=
  if str_mem option required_options
  then list_remove option required_options
  else required_options.

Definition options_resolved (required_options : list string) : bool :=
  if negb (Nat.eqb (length required_options) 0) then false else true.

(** [progress_indicator(future)]; the flush has no content of its own. *)
Definition progress_indicator {A} (future : Result A) : M unit :=
  sys_stdout_write ".".

(** [download(url, retries, back_off_factor, status_force_list, session)].
    The [try] block yields the response; the handler logs and yields
    [None], which stands for the [return] inside it. *)
Definition download (url : string) (retries : Z) (back_off_factor : Q)
    (status_force_list : list Z) (session : option nat) : M unit :=
  if negb (validators_url url) then
    logging_error ("The following line is not a valid URL: " +:+ url)
  else
    fetched <-
      try_except
        (let retry :=
           {| total := retries;
              backoff_factor := back_off_factor;
              status_forcelist := status_force_list |} in
         Session_mount session "https://" {| max_retries := retry |} ;;;
         Session_mount session "http://" {| max_retries := retry |} ;;;
         response <- Session_get session url ;;
         ret (Some response))
        ConnectionError
        (logging_error ("The following URL returns Connection error: " +:+ url) ;;;
         ret None) ;;
    match fetched with
    | None => ret tt
    | Some response =>
        if mem (status_code response) SPECIAL_ERROR_CODES then
          logging_error (pretty (status_code response) +:+ " for: " +:+ url)
        else
          file_name <- lift (getitem (rsplit url slash) 1) ;;
          f <- open_wb file_name ;;
          file_write f (content response)
    end.

(** [executor.submit(task)]: the task runs; what it raises stays in its
    future. *)
Definition submit {A} (task : M A) : M (Result A) :=
  fun w => let '(r, w') := task w in (Ok r, w').

Fixpoint for_each {A B} (f : A -> M B) (xs : list A) : M (list B) :=
  match xs with
  | [] => ret []
  | x :: xs' => y <- f x ;; ys <- for_each f xs' ;; ret (y :: ys)
  end.

(** The values [main] collects while it walks over the parsed options. *)
Record Options := mkOptions {
  input_file : string;
  directory : string;
  required_options : list string
}.

Fixpoint read_opts (opts : list (string * string)) (o : Options) : M Options :=
  match opts with
  | [] => ret o
  | (opt, arg) :: opts' =>
      if str_mem opt ["-h"; "--help"] then
        print_help ;;; sys_exit 0
      else if str_mem opt ["-i"; "--ifile"] then
        read_opts opts'
          {| input_file := arg; directory := directory o;
             required_options := RequiredOptions_resolve "ifile" (required_options o) |}
      else if str_mem opt ["-d"; "--directory"] then
        read_opts opts'
          {| input_file := input_file o; directory := arg;
             required_options := RequiredOptions_resolve "directory" (required_options o) |}
      else
        print_help ;;; read_opts opts' o
  end.

(** [main(argv)], entered with [opts], the option pairs [getopt.getopt]
    returned for [argv].  No interrupt arrives in this model, so the handler
    of [KeyboardInterrupt] has no run here. *)
Definition main (opts : list (string * string)) : M unit :=
  o <- read_opts opts
         {| input_file := ""; directory := "";
            required_options := ["ifile"; "directory"] |} ;;
  (* Verify that all the required options have been specified *)
  if negb (options_resolved (required_options o)) then
    print_help ;;;
    logging_error ("The following required options were not specified:"
                   +:+ String.concat " " (required_options o)) ;;;
    sys_exit 1
  else
    (* check if file or directory exist *)
    input_exists <- os_path_exists (input_file o) ;;
    directory_exists <- os_path_exists (directory o) ;;
    if negb input_exists || negb directory_exists then
      print_help ;;;
      logging_error "Input file or download directory don't exist" ;;;
      sys_exit 1
    else
      text <- read_text (input_file o) ;;
      let urls := splitlines text in
      session <- Session_new ;;
      futures <- for_each
        (fun url => submit (download url MAX_RETRY_FOR_SESSION BACK_OFF_FACTOR
                              ERROR_CODES session))
        urls ;;
      for_each progress_indicator futures ;;;
      ret tt.

End get_urls.

(** ** Vocabulary of the statements *)

(** The world after [k] more requests for [url] went out. *)
Definition sent (w : World) (url : string) (k : nat) : World :=
  set_wire (fun t => (t ++ repeat url k)%list) w.

(** The world after the requests [urls] went out, in this order. *)
Definition requested (w : World) (urls : list string) : World :=
  set_wire (fun t => (t ++ urls)%list) w.

(** What the [i]-th request since [w] met, when those requests were for
    [urls]. *)
Definition met (w : World) (urls : list string) (i : nat) : Attempt :=
  network w (length (wire w) + i)%nat (nth i urls "").

(** A response [requests] hands back as it is: no redirect to follow, and a
    body that arrives whole. *)
Definition final (response : Response) : Prop :=
  get_redirect_target response = None /\ truncated response = false.

(** The last of the requests [urls] was answered with [response]. *)
Definition last_answer (w : World) (urls : list string) (response : Response) : Prop :=
  exists before last,
    urls = (before ++ [last])%list /\
    met w urls (length before) = Answer response.

(** A response that no policy built on the force list [forcelist] retries:
    its status is neither forced nor one that [Retry-After] applies to. *)
Definition never_retried (forcelist : list Z) (response : Response) : Prop :=
  mem (status_code response) forcelist = false /\
  mem (status_code response) RETRY_AFTER_STATUS_CODES = false.

(** A response the policy keeps, whatever is left of its retries: its
    status is not forced, and [Retry-After] does not apply to it. *)
Definition kept (forcelist : list Z) (response : Response) : Prop :=
  mem (status_code response) forcelist = false /\
  retry_after response && mem (status_code response) RETRY_AFTER_STATUS_CODES = false.

(** No request follows an answer that is neither retried nor a redirect:
    such an answer ends the fetch, with that response or with the failure to
    read its body. *)
Definition ends_fetch (forcelist : list Z) (w : World) (urls : list string)
    (res : Result Response) : Prop :=
  forall i r,
    (i < length urls)%nat ->
    met w urls i = Answer r ->
    never_retried forcelist r ->
    get_redirect_target r = None ->
    S i = length urls /\ (res = Ok r \/ res = Raise ChunkedEncodingError).

(** The two [session.mount] calls of [download], on the session itself. *)
Definition mount_both (retry : Retry) (s : Session) : Session :=
  mount "http://" {| max_retries := retry |}
    (mount "https://" {| max_retries := retry |} s).

(** The world once [download] has mounted its adapters on the session at
    reference [l]. *)
Definition remounted (l : nat) (s : Session) (retry : Retry) (w : World) : World :=
  set_sessions (fun h => <[l := mount_both retry s]> h) w.

(** A session as [main] keeps it: the two prefixes of [requests.Session()],
    whatever adapters stand behind them. *)
Definition main_session (s : Session) : Prop :=
  List.map fst (adapters s) = ["https://"; "http://"].

(** The URLs a session of [main] has an adapter for. *)
Definition has_http_prefix (url : string) : bool :=
  startswith (lower url) "https://" || startswith (lower url) "http://".

(** ** Sample inputs *)

(** The URLs of the sample runs: an http scheme, a host with a top-level
    domain, a path; [validators.url] accepts each of them. *)
Definition sample_urls : list string :=
  ["http://example.com/a.png"; "http://example.com/b.png"; "http://example.com/"].

(** [validators.url] on the strings of the sample runs: it accepts the
    sample URLs and rejects the line [not a url].  The sample validator
    answers [False] on every other string as well; no statement rests on
    that. *)
Definition sample_validator (s : string) : bool :=
  existsb (String.eqb s) sample_urls.

(** The keys of [requests.status_codes._codes] in requests 2.32. *)
Definition requests_status_codes : list Z :=
  [100; 101; 102; 103; 122;
   200; 201; 202; 203; 204; 205; 206; 207; 208; 226;
   300; 301; 302; 303; 304; 305; 306; 307; 308;
   400; 401; 402; 403; 404; 405; 406; 407; 408; 409; 410; 411; 412; 413;
   414; 415; 416; 417; 418; 421; 422; 423; 424; 425; 426; 428; 429; 431;
   444; 449; 450; 451; 499;
   500; 501; 502; 503; 504; 505; 506; 507; 509; 510; 511].

Definition answer (status : Z) (body : string) : Attempt :=
  Answer {| status_code := status; content := body; retry_after := false;
            location := None; truncated := false |}.

(** An operator in [/home/op] with a URL list there and a download
    directory [/data/out]; one session already exists at reference 0. *)
Definition operator_world (list_txt : string) (net : nat -> string -> Attempt) : World :=
  {| fs := {[ "/home/op" := Dir; "/data/out" := Dir;
              "/home/op/list.txt" := File list_txt ]};
     cwd := "/home/op";
     sessions := {[ 0%nat := Session_init ]};
     log := [];
     stdout := [];
     network := net;
     wire := [] |}.

(** [download] called the way [main] calls it. *)
Definition download_as_main (url : string) (session : option nat) : M unit :=
  download sample_validator url MAX_RETRY_FOR_SESSION BACK_OFF_FACTOR
    (ERROR_CODES requests_status_codes) session.

(** A server that answers every request with 500. *)
Definition always_500 : nat -> string -> Attempt :=
  fun _ _ => answer 500 "Internal Server Error".

(** A server that answers 500 once and 404 from then on. *)
Definition first_500_then_404 : nat -> string -> Attempt :=
  fun n _ => match n with
             | O => answer 500 "Internal Server Error"
             | S _ => answer 404 "Not Found"
             end.

(** A server that answers every request with 200 and a small body. *)
Definition always_200 : nat -> string -> Attempt :=
  fun _ _ => answer 200 "PNG".


(** A server that answers every request with 404. *)
Definition always_404 : nat -> string -> Attempt :=
  fun _ _ => answer 404 "Not Found".

(** The policy [download] builds when [main] calls it. *)
Definition main_retry : Retry :=
  {| total := MAX_RETRY_FOR_SESSION;
     backoff_factor := BACK_OFF_FACTOR;
     status_forcelist := ERROR_CODES requests_status_codes |}.

(** ** Vocabulary for the options of main *)

(** Which branch of the loop over [opts] an option pair takes. *)
Definition is_help (oa : string * string) : bool :=
  str_mem (fst oa) ["-h"; "--help"].

Definition is_ifile (oa : string * string) : bool :=
  str_mem (fst oa) ["-i"; "--ifile"].

Definition is_directory (oa : string * string) : bool :=
  str_mem (fst oa) ["-d"; "--directory"].

Definition is_unknown (oa : string * string) : bool :=
  negb (is_help oa || is_ifile oa || is_directory oa).

(** The argument of the last option that [p] selects; [default] when there
    is none. *)
Definition last_arg (p : string * string -> bool) (opts : list (string * string))
    (default : string) : string :=
  fold_left (fun acc oa => if p oa then snd oa else acc) opts default.

(** The list kept by [RequiredOptions(["ifile", "directory"])] once the
    input file and the directory have, or have not, been given. *)
Definition required_left (have_ifile have_directory : bool) : list string :=
  ((if have_ifile then [] else ["ifile"])
   ++ (if have_directory then [] else ["directory"]))%list.

(** The world after more records went to [logging]. *)
Definition logged (w : World) (records : list LogRecord) : World :=
  set_log (fun l => (l ++ records)%list) w.

(** The help records the loop logs for the options it does not know. *)
Definition unknown_help (opts : list (string * string)) : list LogRecord :=
  repeat (INFO, help_message) (length (List.filter is_unknown opts)).

(** What [os.path.exists] answers in a world. *)
Definition path_exists (w : World) (path : string) : bool :=
  if String.eqb path "" then false
  else bool_decide (is_Some (fs w !! resolve w path)).

(** A server no connection to which ever holds. *)
Definition always_broken : nat -> string -> Attempt :=
  fun _ _ => ConnFail.


(** ** Strings *)

Lemma rpartition_app_slash (a b : string) :
  rpartition slash b = None ->
  rpartition slash (a +:+ String slash b) = Some (a, b).
Proof.
  intros Hb. induction a as [|c a IH].
  - simpl. rewrite Hb. reflexivity.
  - change (String c a +:+ String slash b) with (String c (a +:+ String slash b)).
    cbn [rpartition]. rewrite IH. reflexivity.
Qed.

Lemma rpartition_Some (s a b : string) :
  rpartition slash s = Some (a, b) ->
  s = a +:+ String slash b /\ rpartition slash b = None.
Proof.
  revert a b. induction s as [|c s IH]; intros a b; simpl; [discriminate|].
  destruct (rpartition slash s) as [[a' b']|] eqn:E.
  - intros [= <- <-]. destruct (IH _ _ eq_refl) as [-> Hb]. split; [reflexivity|assumption].
  - destruct (Ascii.eqb c slash) eqn:Ec; [|discriminate].
    intros [= <- <-]. apply Ascii.eqb_eq in Ec. subst c. split; [reflexivity|assumption].
Qed.

(** ** The retry policy *)

Lemma increment_spec (r : Retry) (reason : Reason) :
  increment r reason =
    if total r <=? 0 then Raise (MaxRetryError reason)
    else Ok {| total := total r - 1;
               backoff_factor := backoff_factor r;
               status_forcelist := status_forcelist r |}.
Proof.
  unfold increment, is_exhausted. simpl.
  destruct (total r - 1 =? 0) eqn:E0; simpl.
  - apply Z.eqb_eq in E0. destruct (total r <=? 0) eqn:E; [lia|reflexivity].
  - apply Z.eqb_neq in E0.
    destruct (total r - 1 <? 0) eqn:E1; destruct (total r <=? 0) eqn:E; try reflexivity; lia.
Qed.

Lemma increment_Ok (r r' : Retry) (reason : Reason) :
  increment r reason = Ok r' ->
  0 < total r /\ total r' = total r - 1 /\
  status_forcelist r' = status_forcelist r.
Proof.
  rewrite increment_spec. destruct (total r <=? 0) eqn:E; [discriminate|].
  intros [= <-]. simpl. repeat split. lia.
Qed.

Lemma increment_Raise (r : Retry) (reason : Reason) (e : Exn) :
  increment r reason = Raise e ->
  total r <= 0 /\ e = MaxRetryError reason.
Proof.
  rewrite increment_spec. destruct (total r <=? 0) eqn:E; [|discriminate].
  intros [= <-]. split; [lia|reflexivity].
Qed.

Lemma mem_In (x : Z) (xs : list Z) : mem x xs = true <-> In x xs.
Proof.
  unfold mem. rewrite existsb_exists. split.
  - intros (y & Hy & E). apply Z.eqb_eq in E. subst. assumption.
  - intros H. exists x. split; [assumption|apply Z.eqb_refl].
Qed.

Lemma is_retry_forced (r : Retry) (status : Z) (h : bool) :
  mem status (status_forcelist r) = true -> is_retry r status h = true.
Proof.
  intros H. unfold is_retry. rewrite H.
  destruct (status_forcelist r); [discriminate|reflexivity].
Qed.

Lemma is_retry_never (r : Retry) (response : Response) :
  never_retried (status_forcelist r) response ->
  is_retry r (status_code response) (retry_after response) = false.
Proof.
  intros [H1 H2]. unfold is_retry. rewrite H1, H2.
  rewrite !andb_false_r. reflexivity.
Qed.

(** ** The trace of requests *)

Lemma sent_0 (w : World) (url : string) : sent w url 0 = w.
Proof. destruct w. unfold sent, set_wire. simpl. rewrite app_nil_r. reflexivity. Qed.

Lemma sent_S (w : World) (url : string) (k : nat) :
  sent (set_wire (fun t => (t ++ [url])%list) w) url k = sent w url (S k).
Proof.
  unfold sent, set_wire. simpl. rewrite <- app_assoc. reflexivity.
Qed.

(** What one run of the retry loop does, whatever the fuel: it only adds
    requests for [url] to the trace, at most one more than the retries the
    policy allows; a response that is handed back answered the last of them;
    and an answer the policy never retries is always the last one. *)
Lemma urlopen_loop_trace (fuel : nat) (url : string) :
  forall (r : Retry) (w : World) (res : Result Response) (w' : World),
    urlopen_loop fuel url r w = (res, w') ->
    exists k,
      w' = sent w url k /\
      (k <= S (Z.to_nat (total r)))%nat /\
      (forall response, res = Ok response ->
         exists j, k = S j /\
           network w (length (wire w) + j)%nat url = Answer response) /\
      (forall i response,
         (i < k)%nat ->
         network w (length (wire w) + i)%nat url = Answer response ->
         never_retried (status_forcelist r) response ->
         S i = k /\ res = Ok response).
Proof.
  induction fuel as [|fuel IH]; intros r w res w' H.
  - simpl in H. injection H as <- <-. exists 0%nat.
    rewrite sent_0. repeat split; try lia; try discriminate.
  - simpl in H. unfold bind, make_request in H.
    assert (Hlen : length (wire (set_wire (fun t => (t ++ [url])%list) w))
                   = S (length (wire w))).
    { simpl. rewrite length_app. simpl. lia. }
    assert (Hnet : network (set_wire (fun t => (t ++ [url])%list) w) = network w)
      by reflexivity.
    destruct (network w (length (wire w)) url) as [|response0] eqn:Ha.
    + (* the connection broke *)
      unfold lift in H.
      destruct (increment r ProtocolError) as [r'|e] eqn:Hinc.
      * apply increment_Ok in Hinc as (Hpos & Htot & Hfl).
        apply IH in H as (k & -> & Hk & Hlast & Hstop).
        exists (S k). rewrite sent_S. split; [reflexivity|]. split; [lia|]. split.
        -- intros response ->. destruct (Hlast _ eq_refl) as (j & -> & Hj).
           exists (S j). split; [reflexivity|].
           rewrite Hlen, Hnet in Hj. rewrite <- Hj. f_equal. lia.
        -- intros [|i] response Hi Hn Hnr.
           ++ rewrite Nat.add_0_r in Hn. congruence.
           ++ rewrite Hfl in Hstop.
              destruct (Hstop i response) as [E1 E2]; try assumption; try lia.
              { rewrite Hlen, Hnet. rewrite <- Hn. f_equal. lia. }
              split; [lia|assumption].
      * injection H as <- <-. exists 1%nat. rewrite <- sent_S, sent_0.
        split; [reflexivity|]. split; [lia|]. split; [discriminate|].
        intros i response Hi Hn Hnr. assert (i = 0%nat) as -> by lia.
        rewrite Nat.add_0_r in Hn. congruence.
    + (* the server answered *)
      destruct (is_retry r (status_code response0) (retry_after response0)) eqn:Hretry.
      * unfold lift in H.
        destruct (increment r ResponseError) as [r'|e] eqn:Hinc.
        -- apply increment_Ok in Hinc as (Hpos & Htot & Hfl).
           apply IH in H as (k & -> & Hk & Hlast & Hstop).
           exists (S k). rewrite sent_S. split; [reflexivity|]. split; [lia|]. split.
           ++ intros response ->. destruct (Hlast _ eq_refl) as (j & -> & Hj).
              exists (S j). split; [reflexivity|].
              rewrite Hlen, Hnet in Hj. rewrite <- Hj. f_equal. lia.
           ++ intros [|i] response Hi Hn Hnr.
              ** rewrite Nat.add_0_r in Hn. rewrite Ha in Hn. injection Hn as <-.
                 rewrite (is_retry_never _ _ Hnr) in Hretry. discriminate.
              ** rewrite Hfl in Hstop.
                 destruct (Hstop i response) as [E1 E2]; try assumption; try lia.
                 { rewrite Hlen, Hnet. rewrite <- Hn. f_equal. lia. }
                 split; [lia|assumption].
        -- injection H as <- <-. exists 1%nat. rewrite <- sent_S, sent_0.
           split; [reflexivity|]. split; [lia|]. split; [discriminate|].
           intros i response Hi Hn Hnr. assert (i = 0%nat) as -> by lia.
           rewrite Nat.add_0_r in Hn. rewrite Ha in Hn. injection Hn as <-.
           rewrite (is_retry_never _ _ Hnr) in Hretry. discriminate.
      * unfold ret in H. injection H as <- <-. exists 1%nat. rewrite <- sent_S, sent_0.
        split; [reflexivity|]. split; [lia|]. split.
        -- intros response [= <-]. exists 0%nat. split; [reflexivity|].
           rewrite Nat.add_0_r. assumption.
        -- intros i response Hi Hn Hnr. assert (i = 0%nat) as -> by lia.
           rewrite Nat.add_0_r in Hn. rewrite Ha in Hn. injection Hn as <-.
           split; reflexivity.
Qed.

(** One more unit of fuel than the retries left is enough: more fuel gives
    the same run. *)
Lemma urlopen_enough_fuel (fuel : nat) (url : string) :
  forall (r : Retry) (w : World),
    (Z.to_nat (total r) < fuel)%nat ->
    urlopen_loop fuel url r w = urlopen url r w.
Proof.
  induction fuel as [|fuel IH]; intros r w Hfuel; [lia|].
  unfold urlopen. simpl. unfold bind, make_request.
  destruct (network w (length (wire w)) url) as [|response0].
  - unfold lift. destruct (increment r ProtocolError) as [r'|e] eqn:Hinc; [|reflexivity].
    apply increment_Ok in Hinc as (Hpos & Htot & _).
    rewrite IH by lia.
    replace (Z.to_nat (total r)) with (S (Z.to_nat (total r'))) by lia.
    reflexivity.
  - destruct (is_retry r (status_code response0) (retry_after response0)); [|reflexivity].
    unfold lift. destruct (increment r ResponseError) as [r'|e] eqn:Hinc; [|reflexivity].
    apply increment_Ok in Hinc as (Hpos & Htot & _).
    rewrite IH by lia.
    replace (Z.to_nat (total r)) with (S (Z.to_nat (total r'))) by lia.
    reflexivity.
Qed.

(** With that fuel the loop always ends the way urllib3 ends: a response or
    [MaxRetryError], never a recursion without bottom. *)
Lemma urlopen_loop_result (fuel : nat) (url : string) :
  forall (r : Retry) (w : World),
    (Z.to_nat (total r) < fuel)%nat ->
    (exists response, fst (urlopen_loop fuel url r w) = Ok response) \/
    (exists reason, fst (urlopen_loop fuel url r w) = Raise (MaxRetryError reason)).
Proof.
  induction fuel as [|fuel IH]; intros r w Hfuel; [lia|].
  simpl. unfold bind, make_request.
  destruct (network w (length (wire w)) url) as [|response0].
  - unfold lift. destruct (increment r ProtocolError) as [r'|e] eqn:Hinc.
    + apply increment_Ok in Hinc as (Hpos & Htot & _). apply IH. lia.
    + apply increment_Raise in Hinc as [_ ->]. right. eexists. reflexivity.
  - destruct (is_retry r (status_code response0) (retry_after response0)).
    + unfold lift. destruct (increment r ResponseError) as [r'|e] eqn:Hinc.
      * apply increment_Ok in Hinc as (Hpos & Htot & _). apply IH. lia.
      * apply increment_Raise in Hinc as [_ ->]. right. eexists. reflexivity.
    + left. eexists. reflexivity.
Qed.

Lemma urlopen_result (url : string) (r : Retry) (w : World) :
  (exists response, fst (urlopen url r w) = Ok response) \/
  (exists reason, fst (urlopen url r w) = Raise (MaxRetryError reason)).
Proof. apply urlopen_loop_result. lia. Qed.

(** A server that meets every request with a forced status wears the policy
    out: the first request and every retry allowed are made, then
    [MaxRetryError] is raised for the response. *)
Lemma urlopen_loop_all_forced (fuel : nat) (url : string) :
  forall (r : Retry) (w : World),
    (Z.to_nat (total r) < fuel)%nat ->
    (forall n, (length (wire w) <= n)%nat ->
       exists response, network w n url = Answer response /\
         mem (status_code response) (status_forcelist r) = true) ->
    urlopen_loop fuel url r w =
      (Raise (MaxRetryError ResponseError), sent w url (S (Z.to_nat (total r)))).
Proof.
  induction fuel as [|fuel IH]; intros r w Hfuel Hall; [lia|].
  simpl. unfold bind, make_request.
  destruct (Hall (length (wire w)) (Nat.le_refl _)) as (response0 & -> & Hmem).
  rewrite (is_retry_forced _ _ _ Hmem). unfold lift.
  destruct (increment r ResponseError) as [r'|e] eqn:Hinc.
  - apply increment_Ok in Hinc as (Hpos & Htot & Hfl).
    rewrite IH.
    + rewrite sent_S. replace (Z.to_nat (total r)) with (S (Z.to_nat (total r'))) by lia.
      reflexivity.
    + lia.
    + intros n Hn. simpl in Hn. rewrite length_app in Hn. simpl in Hn.
      rewrite Hfl. apply Hall. lia.
  - apply increment_Raise in Hinc as [Hle ->].
    replace (Z.to_nat (total r)) with 0%nat by lia.
    rewrite <- sent_S, sent_0. reflexivity.
Qed.

(** ** Sessions *)

Lemma mount_both_main (retry : Retry) (s : Session) :
  main_session s ->
  mount_both retry s =
    {| adapters := [("https://", {| max_retries := retry |});
                    ("http://", {| max_retries := retry |})] |}.
Proof.
  unfold main_session. destruct s as [d]. simpl.
  destruct d as [|[k1 a1] [|[k2 a2] [|? ?]]]; simpl; try discriminate.
  intros [= -> ->]. reflexivity.
Qed.

Lemma mount_both_keeps_main (retry : Retry) (s : Session) :
  main_session s -> main_session (mount_both retry s).
Proof. intros H. rewrite (mount_both_main _ _ H). reflexivity. Qed.

Lemma Session_init_main : main_session Session_init.
Proof. reflexivity. Qed.

Lemma get_adapter_main (retry : Retry) (s : Session) (url : string) :
  main_session s ->
  get_adapter (mount_both retry s) url =
    if has_http_prefix url then Ok {| max_retries := retry |} else Raise InvalidSchema.
Proof.
  intros H. rewrite (mount_both_main _ _ H). unfold get_adapter, has_http_prefix. cbn [adapters find_adapter].
  change (lower "https://") with "https://". change (lower "http://") with "http://".
  destruct (startswith (lower url) "https://"); [reflexivity|].
  destruct (startswith (lower url) "http://"); reflexivity.
Qed.

(** What [adapter_send] makes of the two ways the retry loop can end. *)
Lemma adapter_send_cases (a : HTTPAdapter) (url : string) (w : World) :
  (exists response,
     urlopen url (max_retries a) w = (Ok response, snd (urlopen url (max_retries a) w)) /\
     adapter_send a url w = (Ok response, snd (urlopen url (max_retries a) w))) \/
  (urlopen url (max_retries a) w =
     (Raise (MaxRetryError ResponseError), snd (urlopen url (max_retries a) w)) /\
   adapter_send a url w = (Raise RetryError, snd (urlopen url (max_retries a) w))) \/
  (urlopen url (max_retries a) w =
     (Raise (MaxRetryError ProtocolError), snd (urlopen url (max_retries a) w)) /\
   adapter_send a url w = (Raise ConnectionError, snd (urlopen url (max_retries a) w))).
Proof.
  unfold adapter_send.
  destruct (urlopen_result url (max_retries a) w) as [[response H]|[reason H]];
    destruct (urlopen url (max_retries a) w) as [res w']; simpl in *; subst res.
  - left. exists response. split; reflexivity.
  - destruct reason; [right; right|right; left]; split; reflexivity.
Qed.

Lemma no_slash_not_absolute (name : string) :
  rpartition slash name = None -> startswith name "/" = false.
Proof.
  destruct name as [|c name]; [reflexivity|].
  intros H. unfold startswith. cbn [String.prefix].
  destruct (ascii_dec "/" c) as [<-|Hne]; [|reflexivity].
  exfalso. cbn [rpartition] in H.
  destruct (rpartition slash name) as [[? ?]|]; [discriminate|].
  unfold slash in H. rewrite Ascii.eqb_refl in H. discriminate.
Qed.

Lemma rsplit_trailing_slash (prefix : string) :
  getitem (rsplit (prefix +:+ "/") slash) 1 = Ok "".
Proof.
  unfold rsplit. change "/" with (String slash "").
  rewrite rpartition_app_slash by reflexivity. reflexivity.
Qed.

Lemma ERROR_CODES_In (status_codes : list Z) (c : Z) :
  In c (ERROR_CODES status_codes) <->
  In c status_codes /\ 400 <= c /\ c <> 403 /\ c <> 404.
Proof.
  unfold ERROR_CODES. rewrite filter_In. unfold SPECIAL_ERROR_CODES, mem. simpl.
  rewrite andb_true_iff, negb_true_iff, !orb_false_iff, Z.leb_le, !Z.eqb_neq.
  tauto.
Qed.

Lemma special_never_retried (status_codes : list Z) (response : Response) :
  mem (status_code response) SPECIAL_ERROR_CODES = true ->
  never_retried (ERROR_CODES status_codes) response.
Proof.
  intros H. apply mem_In in H. simpl in H. split.
  - destruct (mem (status_code response) (ERROR_CODES status_codes)) eqn:E; [|reflexivity].
    apply mem_In, ERROR_CODES_In in E. lia.
  - destruct H as [<-|[<-|[]]]; reflexivity.
Qed.

Lemma requested_nil (w : World) : requested w [] = w.
Proof. destruct w. unfold requested, set_wire. simpl. rewrite app_nil_r. reflexivity. Qed.

Lemma requested_app (w : World) (a b : list string) :
  requested (requested w a) b = requested w (a ++ b)%list.
Proof. unfold requested, set_wire. simpl. rewrite <- app_assoc. reflexivity. Qed.

Lemma sent_requested (w : World) (url : string) (k : nat) :
  sent w url k = requested w (repeat url k).
Proof. reflexivity. Qed.

(** One hop: what [HTTPAdapter.send] adds to what the retry loop does. *)
Lemma adapter_send_trace (a : HTTPAdapter) (url : string) (w : World)
    (res : Result Response) (w' : World) :
  adapter_send a url w = (res, w') ->
  exists k,
    w' = sent w url k /\
    (k <= S (Z.to_nat (total (max_retries a))))%nat /\
    (forall response, res = Ok response ->
       exists j, k = S j /\
         network w (length (wire w) + j)%nat url = Answer response) /\
    (forall i response,
       (i < k)%nat ->
       network w (length (wire w) + i)%nat url = Answer response ->
       never_retried (status_forcelist (max_retries a)) response ->
       S i = k /\ res = Ok response) /\
    ((exists response, res = Ok response) \/ res = Raise RetryError \/
     res = Raise ConnectionError).
Proof.
  intros H.
  destruct (adapter_send_cases a url w) as [(response & Hu & Hs)|[[Hu Hs]|[Hu Hs]]];
    rewrite Hs in H; injection H as <- <-;
    apply urlopen_loop_trace in Hu as (k & Hw & Hk & Hlast & Hstop);
    exists k; (split; [exact Hw|]); (split; [exact Hk|]).
  - split; [exact Hlast|]. split; [exact Hstop|]. left. eauto.
  - split; [discriminate|]. split.
    + intros i r Hi Hn Hnr. destruct (Hstop i r Hi Hn Hnr) as [_ E]. discriminate E.
    + right. left. reflexivity.
  - split; [discriminate|]. split.
    + intros i r Hi Hn Hnr. destruct (Hstop i r Hi Hn Hnr) as [_ E]. discriminate E.
    + right. right. reflexivity.
Qed.

Lemma Session_send_frame (self : Session) (url : string) (w : World)
    (res : Result Response) (w' : World) :
  Session_send self url w = (res, w') ->
  exists urls, w' = requested w urls.
Proof.
  unfold Session_send, bind, lift.
  destruct (get_adapter self url) as [a|e];
    [|intros [= <- <-]; exists []; symmetry; apply requested_nil].
  destruct (adapter_send a url w) as [res0 w0] eqn:Hsend.
  apply adapter_send_trace in Hsend as (k & -> & _).
  destruct res0 as [r|e].
  - destruct (truncated r); intros [= <- <-]; exists (repeat url k); reflexivity.
  - intros [= <- <-]. exists (repeat url k). reflexivity.
Qed.

Lemma resolve_redirects_frame (budget : nat) (self : Session) :
  forall (resp : Response) (w : World) (res : Result Response) (w' : World),
    resolve_redirects budget self resp w = (res, w') ->
    exists urls, w' = requested w urls.
Proof.
  induction budget as [|budget IH]; intros resp w res w'; cbn [resolve_redirects];
    destruct (get_redirect_target resp) as [target|];
    try (intros [= <- <-]; exists []; symmetry; apply requested_nil).
  unfold bind. destruct (Session_send self target w) as [res1 w1] eqn:Hsend.
  apply Session_send_frame in Hsend as (urls1 & ->).
  destruct res1 as [r1|e].
  - intros H. apply IH in H as (urls2 & ->). exists (urls1 ++ urls2)%list.
    apply requested_app.
  - intros [= <- <-]. exists urls1. reflexivity.
Qed.

(** A [session.get] only adds requests to the trace. *)
Lemma Session_get_trace (session : option nat) (url : string) (w : World)
    (res : Result Response) (w' : World) :
  Session_get session url w = (res, w') ->
  exists urls, w' = requested w urls.
Proof.
  unfold Session_get, bind, deref, lift.
  destruct session as [l|]; [|intros [= <- <-]; exists []; symmetry; apply requested_nil].
  destruct (sessions w !! l) as [s|]; [|intros [= <- <-]; exists []; symmetry; apply requested_nil].
  destruct (get_adapter s url) as [a|e]; [|intros [= <- <-]; exists []; symmetry; apply requested_nil].
  destruct (adapter_send a url w) as [res0 w0] eqn:Hsend.
  apply adapter_send_trace in Hsend as (k & -> & _).
  destruct res0 as [r|e]; [|intros [= <- <-]; exists (repeat url k); reflexivity].
  destruct (get_redirect_target r).
  - intros H. apply resolve_redirects_frame in H as (urls & ->).
    exists (repeat url k ++ urls)%list. apply requested_app.
  - destruct (truncated r); intros [= <- <-]; exists (repeat url k); reflexivity.
Qed.

Lemma Session_mount_eq (l : nat) (s : Session) (prefix : string) (a : HTTPAdapter) (w : World) :
  sessions w !! l = Some s ->
  Session_mount (Some l) prefix a w =
    (Ok tt, set_sessions (fun h => <[l := mount prefix a s]> h) w).
Proof. intros Hs. unfold Session_mount, bind, deref. rewrite Hs. reflexivity. Qed.

(** ** Opening and writing the file *)

(** [open(name, "wb")] either raises and leaves the world as it is, or
    empties the entry the name resolves to. *)
Lemma open_wb_cases (name : string) (w : World) :
  (exists e, open_wb name w = (Raise e, w) /\
             In e [ValueError; FileNotFoundError; IsADirectoryError; OSError]) \/
  open_wb name w =
    (Ok (resolve w name), set_fs (fun m => <[resolve w name := File ""]> m) w).
Proof.
  unfold open_wb.
  destruct (has_null name); [left; eexists; split; [reflexivity|simpl; tauto]|].
  destruct (String.eqb name ""); [left; eexists; split; [reflexivity|simpl; tauto]|].
  destruct (String.eqb name "." || String.eqb name "..");
    [left; eexists; split; [reflexivity|simpl; tauto]|].
  destruct (fs w !! dirname (resolve w name)) as [[|]|];
    try (left; eexists; split; [reflexivity|simpl; tauto]).
  destruct (NAME_MAX <? String.length (basename name))%nat;
    [left; eexists; split; [reflexivity|simpl; tauto]|].
  destruct (fs w !! resolve w name) as [[|]|];
    first [right; reflexivity | left; eexists; split; [reflexivity|simpl; tauto]].
Qed.

(** The last three lines of [download]: either an exception and the world
    as it was, or the body under the text after the last slash of the
    URL. *)
Lemma write_body_cases (url data : string) (w : World) :
  (exists e,
     (file_name <- lift (getitem (rsplit url slash) 1) ;;
      f <- open_wb file_name ;;
      file_write f data) w = (Raise e, w) /\
     In e [IndexError; ValueError; FileNotFoundError; IsADirectoryError; OSError]) \/
  (exists before name,
     rpartition slash url = Some (before, name) /\
     (file_name <- lift (getitem (rsplit url slash) 1) ;;
      f <- open_wb file_name ;;
      file_write f data) w =
       (Ok tt, set_fs (fun m => <[resolve w name := File data]> m) w)).
Proof.
  unfold bind at 1. unfold lift, rsplit.
  destruct (rpartition slash url) as [[before name]|] eqn:Hurl; cbn [getitem nth_error].
  2:{ left. eexists. split; [reflexivity|simpl; tauto]. }
  unfold bind.
  destruct (open_wb_cases name w) as [(e & -> & He)| ->].
  - left. exists e. split; [reflexivity|]. simpl in *. tauto.
  - right. exists before, name. split; [reflexivity|].
    unfold file_write, set_fs. cbn [fs cwd sessions log stdout network wire].
    rewrite insert_insert_eq. reflexivity.
Qed.

(** ** download, once the URL is valid and the session is there *)

Section download_facts.

Variable validators_url : string -> bool.

(** The function read as: mount, fetch, then decide on the result. *)
Lemma download_valid (url : string) (retries : Z) (bf : Q) (sfl : list Z)
    (l : nat) (s : Session) (w : World) :
  validators_url url = true ->
  sessions w !! l = Some s ->
  download validators_url url retries bf sfl (Some l) w =
    match Session_get (Some l) url
            (remounted l s {| total := retries; backoff_factor := bf;
                              status_forcelist := sfl |} w) with
    | (Ok response, w2) =>
        if mem (status_code response) SPECIAL_ERROR_CODES then
          logging_error (pretty (status_code response) +:+ " for: " +:+ url) w2
        else
          (file_name <- lift (getitem (rsplit url slash) 1) ;;
           f <- open_wb file_name ;;
           file_write f (content response)) w2
    | (Raise e, w2) =>
        if Exn_eqb e ConnectionError then
          logging_error ("The following URL returns Connection error: " +:+ url) w2
        else (Raise e, w2)
    end.
Proof.
  intros Hvalid Hs. unfold download. rewrite Hvalid. cbn [negb].
  unfold bind at 1. unfold try_except. unfold bind at 1.
  rewrite (Session_mount_eq _ _ _ _ _ Hs).
  unfold bind at 1.
  rewrite (Session_mount_eq l (mount "https://" {| max_retries := {| total := retries; backoff_factor := bf; status_forcelist := sfl |} |} s)).
  2:{ simpl. apply lookup_insert_eq. }
  match goal with
  | |- context [set_sessions ?f (set_sessions ?g w)] =>
      replace (set_sessions f (set_sessions g w)) with
        (remounted l s {| total := retries; backoff_factor := bf;
                          status_forcelist := sfl |} w)
  end.
  2:{ unfold remounted, set_sessions, mount_both.
      cbn [fs cwd sessions log stdout network wire]. cbv beta.
      rewrite insert_insert_eq. reflexivity. }
  unfold bind at 1.
  destruct (Session_get _ _ _) as [[response|e] w2]; unfold ret.
  - destruct (mem (status_code response) SPECIAL_ERROR_CODES); reflexivity.
  - destruct (Exn_eqb e ConnectionError); reflexivity.
Qed.

(** What [download] leaves in the heap of sessions. *)
Lemma download_sessions (url : string) (retries : Z) (bf : Q) (sfl : list Z)
    (l : nat) (s : Session) (w : World) :
  sessions w !! l = Some s ->
  sessions (snd (download validators_url url retries bf sfl (Some l) w)) =
    if validators_url url
    then <[l := mount_both {| total := retries; backoff_factor := bf;
                              status_forcelist := sfl |} s]> (sessions w)
    else sessions w.
Proof.
  intros Hs. destruct (validators_url url) eqn:Hvalid.
  - rewrite (download_valid _ _ _ _ _ _ _ Hvalid Hs).
    destruct (Session_get _ _ _) as [res w2] eqn:Hget.
    apply Session_get_trace in Hget as (urls & ->).
    destruct res as [response|e].
    + destruct (mem (status_code response) SPECIAL_ERROR_CODES); [reflexivity|].
      destruct (write_body_cases url (content response)
                  (requested (remounted l s {| total := retries; backoff_factor := bf;
                                               status_forcelist := sfl |} w) urls))
        as [(e & -> & _)|(before & name & _ & ->)]; reflexivity.
    + destruct (Exn_eqb e ConnectionError); reflexivity.
  - unfold download. rewrite Hvalid. reflexivity.
Qed.

End download_facts.

(** On a session of [main], [session.get] finds its adapter for the URLs
    with an http prefix, and for no other URL. *)
Lemma Session_get_main (l : nat) (s : Session) (retry : Retry) (url : string) (w : World) :
  main_session s ->
  Session_get (Some l) url (remounted l s retry w) =
    if has_http_prefix url
    then
      match adapter_send {| max_retries := retry |} url (remounted l s retry w) with
      | (Ok r, w') =>
          match get_redirect_target r with
          | None => if truncated r then (Raise ChunkedEncodingError, w') else (Ok r, w')
          | Some _ => resolve_redirects DEFAULT_REDIRECT_LIMIT (mount_both retry s) r w'
          end
      | (Raise e, w') => (Raise e, w')
      end
    else (Raise InvalidSchema, remounted l s retry w).
Proof.
  intros Hmain. unfold Session_get, bind, deref, lift.
  unfold remounted at 1. cbn [sessions set_sessions]. rewrite lookup_insert_eq.
  rewrite (get_adapter_main _ _ _ Hmain).
  destruct (has_http_prefix url); [|reflexivity].
  destruct (adapter_send _ _ _) as [[r|e] w']; [|reflexivity].
  destruct (get_redirect_target r); [reflexivity|].
  destruct (truncated r); reflexivity.
Qed.

(** ** The requests of one fetch, redirects included *)

Lemma repeat_snoc (u : string) (j : nat) : repeat u (S j) = (repeat u j ++ [u])%list.
Proof. induction j as [|j IH]; [reflexivity|]. simpl in *. rewrite <- IH. reflexivity. Qed.

Lemma met_hop (w : World) (u : string) (k i : nat) (rest : list string) :
  (i < k)%nat ->
  met w (repeat u k ++ rest) i = network w (length (wire w) + i)%nat u.
Proof.
  intros Hi. unfold met. rewrite app_nth1 by (rewrite repeat_length; exact Hi).
  rewrite (nth_indep _ "" u) by (rewrite repeat_length; exact Hi).
  rewrite nth_repeat. reflexivity.
Qed.

Lemma met_after_hop (w : World) (u : string) (k i : nat) (rest : list string) :
  met w (repeat u k ++ rest) (k + i) = met (sent w u k) rest i.
Proof.
  unfold met. cbn [sent set_wire network wire]. rewrite length_app, repeat_length.
  rewrite app_nth2 by (rewrite repeat_length; lia).
  rewrite repeat_length. replace (k + i - k)%nat with i by lia.
  rewrite Nat.add_assoc. reflexivity.
Qed.

(** A hop that ended with a redirect, then the rest of the fetch. *)
Lemma hop_then_rest (forcelist : list Z) (w : World) (u : string) (j : nat)
    (r1 : Response) (rest : list string) (res : Result Response) :
  network w (length (wire w) + j)%nat u = Answer r1 ->
  (forall i response,
     (i < S j)%nat ->
     network w (length (wire w) + i)%nat u = Answer response ->
     never_retried forcelist response ->
     S i = S j /\ response = r1) ->
  get_redirect_target r1 <> None ->
  (forall response, res = Ok response ->
     final response /\
     ((rest = [] /\ response = r1) \/ last_answer (sent w u (S j)) rest response)) ->
  ends_fetch forcelist (sent w u (S j)) rest res ->
  (forall response, res = Ok response ->
     final response /\ last_answer w (repeat u (S j) ++ rest) response) /\
  ends_fetch forcelist w (repeat u (S j) ++ rest) res.
Proof.
  intros Hj Hhop Hredirect Hok Hends. split.
  - intros response Hres. destruct (Hok response Hres) as [Hfinal [[_ ->]|Hlast]].
    + destruct Hfinal as [Hnone _]. contradiction.
    + split; [exact Hfinal|].
      destruct Hlast as (before & last & -> & Hmet).
      exists (repeat u (S j) ++ before)%list, last. split; [apply app_assoc|].
      rewrite length_app, repeat_length, met_after_hop. exact Hmet.
  - intros i r Hi Hmet Hnr Hnone.
    rewrite length_app, repeat_length in Hi |- *.
    destruct (Nat.lt_ge_cases i (S j)) as [Hlt|Hge].
    + rewrite met_hop in Hmet by exact Hlt.
      destruct (Hhop i r Hlt Hmet Hnr) as [_ ->]. contradiction.
    + replace i with (S j + (i - S j))%nat in Hmet by lia.
      rewrite met_after_hop in Hmet.
      destruct (Hends (i - S j)%nat r) as [Hlen Hres]; try assumption; [lia|].
      split; [lia|exact Hres].
Qed.

Section fetch_on_main_session.

Variable retry : Retry.
Variable s : Session.
Hypothesis Hmain : main_session s.

(** One request of a redirect on a session of [main]. *)
Lemma Session_send_main (url : string) (w : World) :
  Session_send (mount_both retry s) url w =
    if has_http_prefix url
    then
      match adapter_send {| max_retries := retry |} url w with
      | (Ok r, w') => if truncated r then (Raise ChunkedEncodingError, w') else (Ok r, w')
      | (Raise e, w') => (Raise e, w')
      end
    else (Raise InvalidSchema, w).
Proof.
  unfold Session_send, bind, lift. rewrite (get_adapter_main _ _ _ Hmain).
  destruct (has_http_prefix url); [|reflexivity].
  destruct (adapter_send _ _ _) as [[r|e] w']; [|reflexivity].
  destruct (truncated r); reflexivity.
Qed.

(** The requests made while the redirects are followed. *)
Lemma resolve_redirects_trace (budget : nat) :
  forall (resp : Response) (w : World) (res : Result Response) (w' : World),
    resolve_redirects budget (mount_both retry s) resp w = (res, w') ->
    exists urls,
      w' = requested w urls /\
      (forall response, res = Ok response ->
         get_redirect_target response = None /\
         ((urls = [] /\ response = resp) \/
          (truncated response = false /\ last_answer w urls response))) /\
      ends_fetch (status_forcelist retry) w urls res.
Proof.
  induction budget as [|budget IH]; intros resp w res w'; cbn [resolve_redirects];
    destruct (get_redirect_target resp) as [target|] eqn:Htarget.
  - intros [= <- <-]. exists []. rewrite requested_nil. split; [reflexivity|].
    split; [discriminate|]. intros i r Hi. simpl in Hi. lia.
  - intros [= <- <-]. exists []. rewrite requested_nil. split; [reflexivity|]. split.
    + intros response [= <-]. split; [exact Htarget|]. left. split; reflexivity.
    + intros i r Hi. simpl in Hi. lia.
  - unfold bind. rewrite Session_send_main.
    destruct (has_http_prefix target).
    2:{ intros [= <- <-]. exists []. rewrite requested_nil. split; [reflexivity|].
        split; [discriminate|]. intros i r Hi. simpl in Hi. lia. }
    destruct (adapter_send {| max_retries := retry |} target w) as [res1 w1] eqn:Hsend.
    apply adapter_send_trace in Hsend as (k & -> & _ & Hlast & Hstop & _).
    cbn [max_retries] in Hstop.
    destruct res1 as [r1|e].
    2:{ intros [= <- <-]. exists (repeat target k). split; [reflexivity|].
        split; [discriminate|].
        intros i r Hi Hmet Hnr _. rewrite repeat_length in Hi.
        rewrite <- (app_nil_r (repeat target k)) in Hmet.
        rewrite met_hop in Hmet by exact Hi.
        destruct (Hstop i r Hi Hmet Hnr) as [_ E]. discriminate E. }
    destruct (Hlast r1 eq_refl) as (j & -> & Hj).
    assert (Hhop : forall i response,
              (i < S j)%nat ->
              network w (length (wire w) + i)%nat target = Answer response ->
              never_retried (status_forcelist retry) response ->
              S i = S j /\ response = r1).
    { intros i response Hi Hn Hnr. destruct (Hstop i response Hi Hn Hnr) as [E1 E2].
      split; [exact E1|]. injection E2 as ->. reflexivity. }
    destruct (truncated r1) eqn:Htr.
    { intros [= <- <-]. exists (repeat target (S j)). split; [reflexivity|].
      split; [discriminate|].
      intros i r Hi Hmet Hnr _. rewrite repeat_length in Hi |- *.
      rewrite <- (app_nil_r (repeat target (S j))) in Hmet.
      rewrite met_hop in Hmet by exact Hi.
      destruct (Hhop i r Hi Hmet Hnr) as [E _]. split; [exact E|]. right. reflexivity. }
    intros Hrest.
    destruct (get_redirect_target r1) as [target'|] eqn:Htarget1.
    + apply IH in Hrest as (rest & -> & Hok & Hends).
      exists (repeat target (S j) ++ rest)%list. split; [apply requested_app|].
      destruct (hop_then_rest (status_forcelist retry) w target j r1 rest res Hj Hhop)
        as [Hok' Hends'].
      * rewrite Htarget1. discriminate.
      * intros response Hres. destruct (Hok response Hres) as [Hnone [Hbase|[Htr' Hl]]].
        -- split; [split; [exact Hnone|]|left; exact Hbase].
           destruct Hbase as [_ ->]. exact Htr.
        -- split; [split; assumption|right; exact Hl].
      * exact Hends.
      * split; [|exact Hends'].
        intros response Hres. destruct (Hok' response Hres) as [[Hnone Htr'] Hl].
        split; [exact Hnone|]. right. split; assumption.
    + (* the response is kept: the loop ends at its next turn *)
      assert (Hend : resolve_redirects budget (mount_both retry s) r1
                       (sent w target (S j)) = (Ok r1, sent w target (S j))).
      { destruct budget; cbn [resolve_redirects]; rewrite Htarget1; reflexivity. }
      rewrite Hend in Hrest. injection Hrest as <- <-.
      exists (repeat target (S j)). split; [reflexivity|]. split.
      * intros response [= <-]. split; [exact Htarget1|]. right. split; [exact Htr|].
        exists (repeat target j), target. split; [apply repeat_snoc|].
        rewrite repeat_length. rewrite <- (app_nil_r (repeat target (S j))).
        rewrite met_hop by lia. exact Hj.
      * intros i r Hi Hmet Hnr _. rewrite repeat_length in Hi |- *.
        rewrite <- (app_nil_r (repeat target (S j))) in Hmet.
        rewrite met_hop in Hmet by exact Hi.
        destruct (Hhop i r Hi Hmet Hnr) as [E ->]. split; [exact E|]. left. reflexivity.
  - intros [= <- <-]. exists []. rewrite requested_nil. split; [reflexivity|]. split.
    + intros response [= <-]. split; [exact Htarget|]. left. split; reflexivity.
    + intros i r Hi. simpl in Hi. lia.
Qed.

(** The requests of one [session.get] on a session of [main]: a response
    that comes back is final and answered the last request; and no request
    follows an answer that is neither retried nor a redirect. *)
Lemma Session_get_hops (l : nat) (url : string) (w : World)
    (res : Result Response) (w2 : World) :
  Session_get (Some l) url (remounted l s retry w) = (res, w2) ->
  exists urls,
    w2 = requested (remounted l s retry w) urls /\
    (forall response, res = Ok response ->
       final response /\ last_answer w urls response) /\
    ends_fetch (status_forcelist retry) w urls res.
Proof.
  rewrite (Session_get_main _ _ _ _ _ Hmain).
  destruct (has_http_prefix url).
  2:{ intros [= <- <-]. exists []. rewrite requested_nil. split; [reflexivity|].
      split; [discriminate|]. intros i r Hi. simpl in Hi. lia. }
  set (w1 := remounted l s retry w).
  destruct (adapter_send {| max_retries := retry |} url w1) as [res1 w'] eqn:Hsend.
  apply adapter_send_trace in Hsend as (k & -> & _ & Hlast & Hstop & _).
  cbn [max_retries] in Hstop.
  change (network w1) with (network w) in *. change (wire w1) with (wire w) in *.
  destruct res1 as [r1|e].
  2:{ intros [= <- <-]. exists (repeat url k). split; [reflexivity|].
      split; [discriminate|].
      intros i r Hi Hmet Hnr _. rewrite repeat_length in Hi.
      rewrite <- (app_nil_r (repeat url k)) in Hmet.
      rewrite met_hop in Hmet by exact Hi.
      destruct (Hstop i r Hi Hmet Hnr) as [_ E]. discriminate E. }
  destruct (Hlast r1 eq_refl) as (j & -> & Hj).
  assert (Hhop : forall i response,
            (i < S j)%nat ->
            network w (length (wire w) + i)%nat url = Answer response ->
            never_retried (status_forcelist retry) response ->
            S i = S j /\ response = r1).
  { intros i response Hi Hn Hnr. destruct (Hstop i response Hi Hn Hnr) as [E1 E2].
    split; [exact E1|]. injection E2 as ->. reflexivity. }
  destruct (get_redirect_target r1) as [target|] eqn:Htarget1.
  - intros Hrest. apply resolve_redirects_trace in Hrest as (rest & -> & Hok & Hends).
    exists (repeat url (S j) ++ rest)%list. split; [apply requested_app|].
    apply (hop_then_rest (status_forcelist retry) w url j r1 rest res Hj Hhop).
    + rewrite Htarget1. discriminate.
    + intros response Hres. destruct (Hok response Hres) as [Hnone [[_ ->]|[Htr' Hl]]].
      * rewrite Htarget1 in Hnone. discriminate.
      * split; [split; assumption|right; exact Hl].
    + exact Hends.
  - destruct (truncated r1) eqn:Htr; intros [= <- <-];
      exists (repeat url (S j)); (split; [reflexivity|]); split.
    + discriminate.
    + intros i r Hi Hmet Hnr _. rewrite repeat_length in Hi |- *.
      rewrite <- (app_nil_r (repeat url (S j))) in Hmet.
      rewrite met_hop in Hmet by exact Hi.
      destruct (Hhop i r Hi Hmet Hnr) as [E _]. split; [exact E|]. right. reflexivity.
    + intros response [= <-]. split; [split; assumption|].
      exists (repeat url j), url. split; [apply repeat_snoc|].
      rewrite repeat_length. rewrite <- (app_nil_r (repeat url (S j))).
      rewrite met_hop by lia. exact Hj.
    + intros i r Hi Hmet Hnr _. rewrite repeat_length in Hi |- *.
      rewrite <- (app_nil_r (repeat url (S j))) in Hmet.
      rewrite met_hop in Hmet by exact Hi.
      destruct (Hhop i r Hi Hmet Hnr) as [E ->]. split; [exact E|]. left. reflexivity.
Qed.

End fetch_on_main_session.

(** ** One hop and no more *)

Lemma is_retry_kept (r : Retry) (response : Response) :
  kept (status_forcelist r) response ->
  is_retry r (status_code response) (retry_after response) = false.
Proof.
  intros [H1 H2]. unfold is_retry. rewrite H1, andb_false_r.
  rewrite <- andb_assoc, H2. apply andb_false_r.
Qed.

Lemma never_retried_kept (forcelist : list Z) (response : Response) :
  never_retried forcelist response -> kept forcelist response.
Proof. intros [H1 H2]. split; [exact H1|]. rewrite H2. apply andb_false_r. Qed.

Lemma special_not_redirect (response : Response) :
  mem (status_code response) SPECIAL_ERROR_CODES = true ->
  get_redirect_target response = None.
Proof.
  intros H. apply mem_In in H. simpl in H. unfold get_redirect_target.
  destruct H as [<-|[<-|[]]]; reflexivity.
Qed.

(** After [j] attempts that were retried, an answer the policy keeps ends
    the loop: it is handed back, and nothing more is sent. *)
Lemma urlopen_loop_retried_then_kept (j : nat) (url : string) (response : Response) :
  forall (fuel : nat) (r : Retry) (w : World),
    (Z.to_nat (total r) < fuel)%nat ->
    (j <= Z.to_nat (total r))%nat ->
    (forall i, (i < j)%nat ->
       network w (length (wire w) + i)%nat url = ConnFail \/
       exists failed, network w (length (wire w) + i)%nat url = Answer failed /\
                      mem (status_code failed) (status_forcelist r) = true) ->
    network w (length (wire w) + j)%nat url = Answer response ->
    kept (status_forcelist r) response ->
    urlopen_loop fuel url r w = (Ok response, sent w url (S j)).
Proof.
  induction j as [|j IH]; intros fuel r w Hfuel Hj Hfailed Hlast Hkept;
    (destruct fuel as [|fuel]; [lia|]); simpl; unfold bind, make_request.
  - rewrite Nat.add_0_r in Hlast. rewrite Hlast, (is_retry_kept _ _ Hkept).
    unfold ret. rewrite <- sent_S, sent_0. reflexivity.
  - assert (Hnext : forall r', total r' = total r - 1 ->
              status_forcelist r' = status_forcelist r ->
              urlopen_loop fuel url r' (set_wire (fun t => (t ++ [url])%list) w)
              = (Ok response, sent w url (S (S j)))).
    { intros r' Htot Hfl. rewrite <- sent_S. apply IH.
      - lia.
      - lia.
      - intros i Hi. cbn [network wire set_wire]. rewrite length_app. cbn [length].
        rewrite Hfl. replace (length (wire w) + 1 + i)%nat with (length (wire w) + S i)%nat by lia.
        apply Hfailed. lia.
      - cbn [network wire set_wire]. rewrite length_app. cbn [length].
        replace (length (wire w) + 1 + j)%nat with (length (wire w) + S j)%nat by lia.
        exact Hlast.
      - rewrite Hfl. exact Hkept. }
    assert (Hinc : forall reason, exists r',
              increment r reason = Ok r' /\ total r' = total r - 1 /\
              status_forcelist r' = status_forcelist r).
    { intros reason. rewrite increment_spec.
      destruct (total r <=? 0) eqn:E; [lia|]. eexists. split; [reflexivity|].
      split; reflexivity. }
    destruct (Hfailed 0%nat) as [Hn|(failed & Hn & Hmem)]; [lia| |];
      rewrite Nat.add_0_r in Hn; rewrite Hn.
    + destruct (Hinc ProtocolError) as (r' & -> & Htot & Hfl). unfold lift.
      apply Hnext; assumption.
    + rewrite (is_retry_forced _ _ _ Hmem).
      destruct (Hinc ResponseError) as (r' & -> & Htot & Hfl). unfold lift.
      apply Hnext; assumption.
Qed.

(** A server no connection to which holds wears the policy out as well; the
    error is the broken connection. *)
Lemma urlopen_loop_all_broken (fuel : nat) (url : string) :
  forall (r : Retry) (w : World),
    (Z.to_nat (total r) < fuel)%nat ->
    (forall n, (length (wire w) <= n)%nat -> network w n url = ConnFail) ->
    urlopen_loop fuel url r w =
      (Raise (MaxRetryError ProtocolError), sent w url (S (Z.to_nat (total r)))).
Proof.
  induction fuel as [|fuel IH]; intros r w Hfuel Hall; [lia|].
  simpl. unfold bind, make_request.
  rewrite (Hall (length (wire w)) (Nat.le_refl _)). unfold lift.
  destruct (increment r ProtocolError) as [r'|e] eqn:Hinc.
  - apply increment_Ok in Hinc as (Hpos & Htot & Hfl).
    rewrite IH.
    + rewrite sent_S. replace (Z.to_nat (total r)) with (S (Z.to_nat (total r'))) by lia.
      reflexivity.
    + lia.
    + intros n Hn. simpl in Hn. rewrite length_app in Hn. simpl in Hn.
      apply Hall. lia.
  - apply increment_Raise in Hinc as [Hle ->].
    replace (Z.to_nat (total r)) with 0%nat by lia.
    rewrite <- sent_S, sent_0. reflexivity.
Qed.

Section one_hop.

Variable retry : Retry.
Variable s : Session.
Variable l : nat.
Variable url : string.
Variable w : World.
Hypothesis Hmain : main_session s.
Hypothesis Hprefix : has_http_prefix url = true.

(** Every request meets a forced status: the retries run out. *)
Lemma Session_get_exhausted :
  (forall n, (length (wire w) <= n)%nat ->
     exists response, network w n url = Answer response /\
       mem (status_code response) (status_forcelist retry) = true) ->
  Session_get (Some l) url (remounted l s retry w) =
    (Raise RetryError,
     sent (remounted l s retry w) url (S (Z.to_nat (total retry)))).
Proof.
  intros Hall. rewrite (Session_get_main _ _ _ _ _ Hmain), Hprefix.
  unfold adapter_send, urlopen. cbn [max_retries].
  rewrite urlopen_loop_all_forced; [reflexivity|lia|exact Hall].
Qed.

(** Every connection breaks: the retries run out. *)
Lemma Session_get_broken :
  (forall n, (length (wire w) <= n)%nat -> network w n url = ConnFail) ->
  Session_get (Some l) url (remounted l s retry w) =
    (Raise ConnectionError,
     sent (remounted l s retry w) url (S (Z.to_nat (total retry)))).
Proof.
  intros Hall. rewrite (Session_get_main _ _ _ _ _ Hmain), Hprefix.
  unfold adapter_send, urlopen. cbn [max_retries].
  rewrite urlopen_loop_all_broken; [reflexivity|lia|exact Hall].
Qed.

(** After [j] retried attempts an answer that is kept and final comes
    back. *)
Lemma Session_get_kept (j : nat) (response : Response) :
  (j <= Z.to_nat (total retry))%nat ->
  (forall i, (i < j)%nat ->
     network w (length (wire w) + i)%nat url = ConnFail \/
     exists failed, network w (length (wire w) + i)%nat url = Answer failed /\
                    mem (status_code failed) (status_forcelist retry) = true) ->
  network w (length (wire w) + j)%nat url = Answer response ->
  kept (status_forcelist retry) response ->
  final response ->
  Session_get (Some l) url (remounted l s retry w) =
    (Ok response, sent (remounted l s retry w) url (S j)).
Proof.
  intros Hj Hfailed Hlast Hkept [Hnone Hwhole].
  rewrite (Session_get_main _ _ _ _ _ Hmain), Hprefix.
  unfold adapter_send, urlopen. cbn [max_retries].
  rewrite (urlopen_loop_retried_then_kept j url response); try assumption; [|lia].
  rewrite Hnone, Hwhole. reflexivity.
Qed.

End one_hop.


(** Where a fetched body lands: under the text after the last slash of the
    URL, in the working directory of the process. *)
Lemma download_writes_in_cwd (validators_url : string -> bool)
    (url before name : string) (retries : Z) (bf : Q) (sfl : list Z)
    (l : nat) (s : Session) (w : World) (response : Response) (w2 : World) :
  validators_url url = true ->
  sessions w !! l = Some s ->
  Session_get (Some l) url
    (remounted l s {| total := retries; backoff_factor := bf;
                      status_forcelist := sfl |} w) = (Ok response, w2) ->
  mem (status_code response) SPECIAL_ERROR_CODES = false ->
  rpartition slash url = Some (before, name) ->
  name <> "" -> name <> "." -> name <> ".." ->
  has_null name = false ->
  (String.length name <= NAME_MAX)%nat ->
  cwd w <> "" ->
  fs w !! cwd w = Some Dir ->
  fs w !! (cwd w +:+ "/" +:+ name) <> Some Dir ->
  exists w',
    download validators_url url retries bf sfl (Some l) w = (Ok tt, w') /\
    fs w' = <[cwd w +:+ "/" +:+ name := File (content response)]> (fs w) /\
    log w' = log w /\
    wire w' = wire w2.
Proof.
  intros Hvalid Hs Hget Hstatus Hurl Hne Hdot Hdots Hnull Hlen Hcwd Hdir Hfile.
  rewrite (download_valid _ _ _ _ _ _ _ _ Hvalid Hs), Hget, Hstatus.
  apply Session_get_trace in Hget as (urls & ->).
  apply rpartition_Some in Hurl as [-> Hname].
  unfold bind, lift, rsplit.
  rewrite (rpartition_app_slash _ _ Hname). cbn [getitem nth_error].
  unfold open_wb. rewrite Hnull.
  destruct (String.eqb_spec name ""); [contradiction|].
  destruct (String.eqb_spec name "."); [contradiction|].
  destruct (String.eqb_spec name ".."); [contradiction|].
  cbn [orb]. unfold resolve. rewrite (no_slash_not_absolute _ Hname).
  cbn [cwd requested set_wire remounted set_sessions fs].
  assert (Hparent : dirname (cwd w +:+ "/" +:+ name) = cwd w).
  { unfold dirname. change ("/" +:+ name) with (String slash name).
    rewrite (rpartition_app_slash _ _ Hname).
    destruct (cwd w); [contradiction|reflexivity]. }
  rewrite Hparent, Hdir.
  unfold basename. rewrite Hname.
  destruct (Nat.ltb_spec NAME_MAX (String.length name)) as [Hlong|_]; [lia|].
  destruct (fs w !! (cwd w +:+ "/" +:+ name)) as [[data|]|] eqn:Hentry;
    try contradiction;
    (eexists; split; [reflexivity|]);
    cbn [fs log wire file_write set_fs snd];
    (split; [apply insert_insert_eq|split; reflexivity]).
Qed.

(** The sessions of [main] stay sessions of [main]: a [download] leaves the
    two prefixes in place. *)
Lemma download_keeps_main_session (validators_url : string -> bool)
    (url : string) (retries : Z) (bf : Q) (sfl : list Z)
    (l : nat) (s : Session) (w : World) :
  sessions w !! l = Some s ->
  main_session s ->
  exists s',
    sessions (snd (download validators_url url retries bf sfl (Some l) w)) !! l = Some s' /\
    main_session s'.
Proof.
  intros Hs Hmain. rewrite (download_sessions _ _ _ _ _ _ _ _ Hs).
  destruct (validators_url url).
  - eexists. split; [apply lookup_insert_eq|].
    apply mount_both_keeps_main. exact Hmain.
  - exists s. split; assumption.
Qed.

Lemma requested_inj (w : World) (a b : list string) :
  requested w a = requested w b -> a = b.
Proof.
  intros H. apply (f_equal wire) in H. cbn [requested set_wire wire] in H.
  apply app_inv_head in H. exact H.
Qed.

(** The first request of a [session.get] is for its URL. *)
Lemma Session_get_first (session : option nat) (url : string) (w : World)
    (res : Result Response) (w' : World) :
  Session_get session url w = (res, w') ->
  exists urls, w' = requested w urls /\
               forall u rest, urls = u :: rest -> u = url.
Proof.
  unfold Session_get, bind, deref, lift.
  assert (Hnil : exists urls, w = requested w urls /\
                              forall u rest, urls = u :: rest -> u = url).
  { exists []. split; [symmetry; apply requested_nil|discriminate]. }
  assert (Hrep : forall k rest, forall u rest', (repeat url (S k) ++ rest)%list = u :: rest' -> u = url).
  { intros k rest u rest' [= <- _]. reflexivity. }
  destruct session as [l|]; [|intros [= <- <-]; exact Hnil].
  destruct (sessions w !! l) as [s|]; [|intros [= <- <-]; exact Hnil].
  destruct (get_adapter s url) as [a|e]; [|intros [= <- <-]; exact Hnil].
  destruct (adapter_send a url w) as [res0 w0] eqn:Hsend.
  apply adapter_send_trace in Hsend as (k & -> & _ & Hlast & _).
  destruct res0 as [r|e].
  - destruct (Hlast r eq_refl) as (j & -> & _).
    destruct (get_redirect_target r).
    + intros H. apply resolve_redirects_frame in H as (urls & ->).
      exists (repeat url (S j) ++ urls)%list. split; [apply requested_app|apply Hrep].
    + destruct (truncated r); intros [= <- <-]; exists (repeat url (S j));
        (split; [reflexivity|]); rewrite <- (app_nil_r (repeat url (S j))); apply Hrep.
  - intros [= <- <-]. exists (repeat url k). split; [reflexivity|].
    destruct k; [discriminate|]. rewrite <- (app_nil_r (repeat url (S k))). apply Hrep.
Qed.

(** ** The claims *)

(** C7.  A string that fails [validators.url] ends the task at once: the
    call returns after one error record naming the line, no request has been
    sent, no file has been touched and the session is as it was. *)
Theorem C7_invalid_url_short_circuits (validators_url : string -> bool)
    (url : string) (retries : Z) (bf : Q) (sfl : list Z)
    (session : option nat) (w : World) :
  validators_url url = false ->
  exists w',
    download validators_url url retries bf sfl session w = (Ok tt, w') /\
    log w' = (log w ++ [(ERROR, "The following line is not a valid URL: " +:+ url)])%list /\
    wire w' = wire w /\
    fs w' = fs w /\
    sessions w' = sessions w.
Proof.
  intros Hinvalid. unfold download. rewrite Hinvalid. cbn [negb].
  eexists. split; [reflexivity|]. repeat split.
Qed.

Lemma C7_invalid_url_witness :
  sample_validator "not a url" = false /\
  exists w',
    download sample_validator "not a url" MAX_RETRY_FOR_SESSION BACK_OFF_FACTOR
      (ERROR_CODES requests_status_codes) (Some 0%nat)
      (operator_world "" always_200) = (Ok tt, w') /\
    log w' = (log (operator_world "" always_200) ++
              [(ERROR, "The following line is not a valid URL: " +:+ "not a url")])%list /\
    wire w' = wire (operator_world "" always_200) /\
    fs w' = fs (operator_world "" always_200) /\
    sessions w' = sessions (operator_world "" always_200).
Proof.
  split; [reflexivity|].
  apply (C7_invalid_url_short_circuits sample_validator "not a url").
  reflexivity.
Defined.

(** C10.  A valid URL that ends with a slash and is fetched with a status
    other than 403 and 404 has the empty string as its file name; opening
    it raises [FileNotFoundError], which leaves [download]: no file is
    written and nothing is logged. *)
Theorem C10_trailing_slash_raises (validators_url : string -> bool)
    (prefix url : string) (retries : Z) (bf : Q) (sfl : list Z)
    (l : nat) (s : Session) (w : World) (response : Response) (w2 : World) :
  validators_url url = true ->
  sessions w !! l = Some s ->
  url = prefix +:+ "/" ->
  Session_get (Some l) url
    (remounted l s {| total := retries; backoff_factor := bf;
                      status_forcelist := sfl |} w) = (Ok response, w2) ->
  mem (status_code response) SPECIAL_ERROR_CODES = false ->
  getitem (rsplit url slash) 1 = Ok "" /\
  open_wb "" w2 = (Raise FileNotFoundError, w2) /\
  download validators_url url retries bf sfl (Some l) w = (Raise FileNotFoundError, w2) /\
  fs w2 = fs w /\
  log w2 = log w.
Proof.
  intros Hvalid Hs -> Hget Hstatus.
  assert (Hname := rsplit_trailing_slash prefix).
  split; [assumption|]. split; [reflexivity|]. split.
  - rewrite (download_valid _ _ _ _ _ _ _ _ Hvalid Hs), Hget, Hstatus.
    unfold bind, lift. rewrite Hname. reflexivity.
  - apply Session_get_trace in Hget as (urls & ->). split; reflexivity.
Qed.

Lemma C10_trailing_slash_witness :
  Session_get (Some 0%nat) "http://example.com/"
    (remounted 0 Session_init main_retry (operator_world "" always_200))
    = (Ok {| status_code := 200; content := "PNG"; retry_after := false;
             location := None; truncated := false |},
       sent (remounted 0 Session_init main_retry (operator_world "" always_200))
         "http://example.com/" 1) /\
  getitem (rsplit "http://example.com/" slash) 1 = Ok "" /\
  open_wb "" (sent (remounted 0 Session_init main_retry (operator_world "" always_200))
                "http://example.com/" 1)
    = (Raise FileNotFoundError,
       sent (remounted 0 Session_init main_retry (operator_world "" always_200))
         "http://example.com/" 1) /\
  download sample_validator "http://example.com/" MAX_RETRY_FOR_SESSION BACK_OFF_FACTOR
    (ERROR_CODES requests_status_codes) (Some 0%nat) (operator_world "" always_200)
    = (Raise FileNotFoundError,
       sent (remounted 0 Session_init main_retry (operator_world "" always_200))
         "http://example.com/" 1) /\
  fs (sent (remounted 0 Session_init main_retry (operator_world "" always_200))
        "http://example.com/" 1) = fs (operator_world "" always_200) /\
  log (sent (remounted 0 Session_init main_retry (operator_world "" always_200))
         "http://example.com/" 1) = log (operator_world "" always_200).
Proof.
  assert (Hget : Session_get (Some 0%nat) "http://example.com/"
    (remounted 0 Session_init main_retry (operator_world "" always_200))
    = (Ok {| status_code := 200; content := "PNG"; retry_after := false;
             location := None; truncated := false |},
       sent (remounted 0 Session_init main_retry (operator_world "" always_200))
         "http://example.com/" 1)).
  { vm_compute. reflexivity. }
  split; [exact Hget|].
  exact (C10_trailing_slash_raises sample_validator "http://example.com"
           "http://example.com/"
           MAX_RETRY_FOR_SESSION BACK_OFF_FACTOR (ERROR_CODES requests_status_codes)
           0%nat Session_init (operator_world "" always_200) _ _
           eq_refl eq_refl eq_refl Hget eq_refl).
Defined.




(** C8, as the claim states it, fails: after one [download] of a valid URL
    the session shared by the tasks is no longer the one [main] created. *)
Lemma C8_session_is_mutated :
  sample_validator "http://example.com/a.png" = true /\
  sessions (snd (download_as_main "http://example.com/a.png" (Some 0%nat)
                   (operator_world "" always_200)))
  <> sessions (operator_world "" always_200).
Proof.
  split; [reflexivity|].
  intros H. apply (f_equal (fun h => h !! 0%nat)) in H.
  vm_compute in H. discriminate H.
Qed.

(** C8, amended.  A [download] of a valid URL changes the session it is
    given: under the prefixes [https://] and [http://] it mounts new adapters
    that carry a policy made of the values of this call, and changes nothing
    else in the heap of sessions; a [download] of an invalid URL leaves the
    session alone.  The values [retries], [back_off_factor] and
    [status_force_list] are read only: they end up in the policy as given. *)
Theorem C8_download_remounts_adapters (validators_url : string -> bool)
    (url : string) (retries : Z) (bf : Q) (sfl : list Z)
    (l : nat) (s : Session) (w : World) :
  sessions w !! l = Some s ->
  sessions (snd (download validators_url url retries bf sfl (Some l) w)) =
    if validators_url url
    then <[l := mount "http://"
                  {| max_retries := {| total := retries; backoff_factor := bf;
                                       status_forcelist := sfl |} |}
                  (mount "https://"
                     {| max_retries := {| total := retries; backoff_factor := bf;
                                          status_forcelist := sfl |} |} s)]>
           (sessions w)
    else sessions w.
Proof. intros Hs. apply (download_sessions _ _ _ _ _ _ _ _ Hs). Qed.

Lemma C8_download_remounts_witness :
  sessions (operator_world "" always_200) !! 0%nat = Some Session_init /\
  sessions (snd (download sample_validator "http://example.com/a.png"
                   MAX_RETRY_FOR_SESSION
                   BACK_OFF_FACTOR (ERROR_CODES requests_status_codes) (Some 0%nat)
                   (operator_world "" always_200))) =
    if sample_validator "http://example.com/a.png"
    then <[0%nat := mount "http://"
                  {| max_retries := {| total := MAX_RETRY_FOR_SESSION;
                                       backoff_factor := BACK_OFF_FACTOR;
                                       status_forcelist := ERROR_CODES requests_status_codes |} |}
                  (mount "https://"
                     {| max_retries := {| total := MAX_RETRY_FOR_SESSION;
                                          backoff_factor := BACK_OFF_FACTOR;
                                          status_forcelist := ERROR_CODES requests_status_codes |} |}
                     Session_init)]>
           (sessions (operator_world "" always_200))
    else sessions (operator_world "" always_200).
Proof.
  split; [reflexivity|].
  apply (C8_download_remounts_adapters sample_validator "http://example.com/a.png").
  reflexivity.
Defined.




(** C4, as the claim states it, fails: the URL is valid, the server answers
    500 to the first request and 404 to the second; the fetch ends with the
    status 404, which is logged, and two requests went out, not one. *)
Lemma C4_two_requests_before_404 :
  sample_validator "http://example.com/b.png" = true /\
  log (snd (download_as_main "http://example.com/b.png" (Some 0%nat)
              (operator_world "" first_500_then_404)))
    = [(ERROR, "404 for: http://example.com/b.png")] /\
  wire (snd (download_as_main "http://example.com/b.png" (Some 0%nat)
               (operator_world "" first_500_then_404)))
    = ["http://example.com/b.png"; "http://example.com/b.png"] /\
  length (wire (snd (download_as_main "http://example.com/b.png" (Some 0%nat)
                       (operator_world "" first_500_then_404))))
    <> 1%nat.
Proof.
  split; [reflexivity|].
  split; [vm_compute; reflexivity|]. split; [vm_compute; reflexivity|].
  vm_compute. discriminate.
Qed.

(** C4, amended.  When the fetch ends with a status in {403, 404}, the
    request that was answered with it is the last one: no request follows a
    403 or a 404, whatever is left of the retries, and every request before
    it was answered otherwise, so that it is the only request when the
    server answers the first one with such a code.  [download] then logs the
    code with the URL and returns; no file is written. *)
Theorem C4_special_code_ends_fetch (validators_url : string -> bool)
    (status_codes : list Z) (url : string) (retries : Z) (bf : Q)
    (l : nat) (s : Session) (w : World) (response : Response) (w2 : World) :
  validators_url url = true ->
  sessions w !! l = Some s ->
  main_session s ->
  Session_get (Some l) url
    (remounted l s {| total := retries; backoff_factor := bf;
                      status_forcelist := ERROR_CODES status_codes |} w)
    = (Ok response, w2) ->
  mem (status_code response) SPECIAL_ERROR_CODES = true ->
  exists urls,
    wire w2 = (wire w ++ urls)%list /\
    last_answer w urls response /\
    (forall i r, (S i < length urls)%nat ->
       met w urls i = Answer r ->
       mem (status_code r) SPECIAL_ERROR_CODES = false) /\
    (forall r, network w (length (wire w)) url = Answer r ->
       mem (status_code r) SPECIAL_ERROR_CODES = true -> urls = [url]) /\
    download validators_url url retries bf (ERROR_CODES status_codes) (Some l) w =
      (Ok tt,
       set_log (fun records =>
                  (records ++ [(ERROR, pretty (status_code response)
                                       +:+ " for: " +:+ url)])%list) w2) /\
    fs w2 = fs w.
Proof.
  intros Hvalid Hs Hmain Hget Hspecial.
  rewrite (download_valid _ _ _ _ _ _ _ _ Hvalid Hs), Hget, Hspecial.
  set (retry := {| total := retries; backoff_factor := bf;
                   status_forcelist := ERROR_CODES status_codes |}) in *.
  destruct (Session_get_first _ _ _ _ _ Hget) as (urls0 & Hw0 & Hfirst).
  destruct (Session_get_hops retry s Hmain l url w _ _ Hget) as (urls & -> & Hok & Hends).
  apply requested_inj in Hw0. subst urls0.
  destruct (Hok response eq_refl) as [_ Hlast].
  cbn [status_forcelist retry] in Hends.
  exists urls. split; [reflexivity|]. split; [exact Hlast|].
  assert (Hstops : forall i r, (i < length urls)%nat ->
            met w urls i = Answer r ->
            mem (status_code r) SPECIAL_ERROR_CODES = true ->
            S i = length urls).
  { intros i r Hi Hmet E.
    destruct (Hends i r Hi Hmet) as [Hlen _]; [|apply special_not_redirect; exact E|exact Hlen].
    apply special_never_retried. exact E. }
  split; [|split; [|split; reflexivity]].
  - intros i r Hi Hmet.
    destruct (mem (status_code r) SPECIAL_ERROR_CODES) eqn:E; [|reflexivity].
    assert (S i = length urls) by (apply (Hstops i r); [lia|assumption|assumption]). lia.
  - intros r Hr E. destruct Hlast as (before & last & Hurls & _).
    destruct urls as [|u rest]; [destruct before; discriminate Hurls|].
    rewrite (Hfirst u rest eq_refl) in *.
    assert (Hone : 1%nat = length (url :: rest)).
    { apply (Hstops 0%nat r); [simpl; lia| |exact E].
      unfold met. cbn [nth]. rewrite Nat.add_0_r. exact Hr. }
    destruct rest; [reflexivity|discriminate Hone].
Qed.

Lemma C4_special_code_witness :
  Session_get (Some 0%nat) "http://example.com/b.png"
    (remounted 0 Session_init main_retry (operator_world "" always_404))
    = (Ok {| status_code := 404; content := "Not Found"; retry_after := false;
             location := None; truncated := false |},
       sent (remounted 0 Session_init main_retry (operator_world "" always_404))
         "http://example.com/b.png" 1) /\
  exists urls,
    wire (sent (remounted 0 Session_init main_retry (operator_world "" always_404))
            "http://example.com/b.png" 1)
      = (wire (operator_world "" always_404) ++ urls)%list /\
    urls = ["http://example.com/b.png"] /\
    download sample_validator "http://example.com/b.png" MAX_RETRY_FOR_SESSION
      BACK_OFF_FACTOR
      (ERROR_CODES requests_status_codes) (Some 0%nat) (operator_world "" always_404) =
      (Ok tt,
       set_log (fun records =>
                  (records ++ [(ERROR, pretty 404
                                       +:+ " for: " +:+ "http://example.com/b.png")])%list)
         (sent (remounted 0 Session_init main_retry (operator_world "" always_404))
            "http://example.com/b.png" 1)).
Proof.
  assert (Hget : Session_get (Some 0%nat) "http://example.com/b.png"
    (remounted 0 Session_init main_retry (operator_world "" always_404))
    = (Ok {| status_code := 404; content := "Not Found"; retry_after := false;
             location := None; truncated := false |},
       sent (remounted 0 Session_init main_retry (operator_world "" always_404))
         "http://example.com/b.png" 1)).
  { vm_compute. reflexivity. }
  split; [exact Hget|].
  destruct (C4_special_code_ends_fetch sample_validator requests_status_codes
              "http://example.com/b.png" MAX_RETRY_FOR_SESSION BACK_OFF_FACTOR
              0%nat Session_init
              (operator_world "" always_404) _ _
              eq_refl eq_refl Session_init_main Hget eq_refl)
    as (urls & Hwire & _ & _ & Hfirst & Hdl & _).
  exists urls. split; [exact Hwire|].
  split; [apply (Hfirst _ eq_refl eq_refl)|exact Hdl].
Defined.

(** C2.  The code does not do what the claim says when the retries run
    out: for a valid URL whose every request is answered with a status of
    the force list, [session.get] raises [RetryError], the handler of
    [ConnectionError] does not take it, and the exception leaves [download]
    with nothing logged and nothing written. *)
Theorem C2_retry_error_is_not_logged (validators_url : string -> bool)
    (url : string) (retries : Z) (bf : Q) (sfl : list Z)
    (l : nat) (s : Session) (w : World) :
  validators_url url = true ->
  sessions w !! l = Some s ->
  main_session s ->
  has_http_prefix url = true ->
  (forall n, (length (wire w) <= n)%nat ->
     exists response, network w n url = Answer response /\
       mem (status_code response) sfl = true) ->
  exists w',
    download validators_url url retries bf sfl (Some l) w = (Raise RetryError, w') /\
    log w' = log w /\
    fs w' = fs w.
Proof.
  intros Hvalid Hs Hmain Hprefix Hall.
  rewrite (download_valid _ _ _ _ _ _ _ _ Hvalid Hs).
  rewrite (Session_get_exhausted
             {| total := retries; backoff_factor := bf; status_forcelist := sfl |}
             s l url w Hmain Hprefix Hall).
  eexists. split; [reflexivity|]. split; reflexivity.
Qed.

Lemma C2_retry_error_witness :
  sample_validator "http://example.com/a.png" = true /\
  (forall n, (length (wire (operator_world "" always_500)) <= n)%nat ->
     exists response,
       network (operator_world "" always_500) n "http://example.com/a.png"
         = Answer response /\
       mem (status_code response) (ERROR_CODES requests_status_codes) = true) /\
  exists w',
    download sample_validator "http://example.com/a.png" MAX_RETRY_FOR_SESSION
      BACK_OFF_FACTOR (ERROR_CODES requests_status_codes) (Some 0%nat)
      (operator_world "" always_500) = (Raise RetryError, w') /\
    log w' = log (operator_world "" always_500) /\
    fs w' = fs (operator_world "" always_500).
Proof.
  assert (Hall : forall n, (length (wire (operator_world "" always_500)) <= n)%nat ->
     exists response,
       network (operator_world "" always_500) n "http://example.com/a.png"
         = Answer response /\
       mem (status_code response) (ERROR_CODES requests_status_codes) = true).
  { intros n _. eexists. split; reflexivity. }
  split; [reflexivity|]. split; [exact Hall|].
  exact (C2_retry_error_is_not_logged sample_validator "http://example.com/a.png"
           MAX_RETRY_FOR_SESSION BACK_OFF_FACTOR (ERROR_CODES requests_status_codes)
           0%nat Session_init (operator_world "" always_500)
           eq_refl eq_refl Session_init_main eq_refl Hall).
Defined.

(** ** The rest of the script: required options *)

Lemma str_mem_In (x : string) (xs : list string) : str_mem x xs = true <-> In x xs.
Proof.
  unfold str_mem. rewrite existsb_exists. split.
  - intros (y & Hy & E). apply String.eqb_eq in E. subst. assumption.
  - intros H. exists x. split; [assumption|apply String.eqb_refl].
Qed.

Lemma str_mem_false (x : string) (xs : list string) : str_mem x xs = false <-> ~ In x xs.
Proof.
  rewrite <- str_mem_In. destruct (str_mem x xs); split; congruence.
Qed.

Lemma list_remove_absent (x : string) (xs : list string) :
  ~ In x xs -> list_remove x xs = xs.
Proof.
  induction xs as [|y ys IH]; intros Hx; [reflexivity|]. simpl.
  destruct (String.eqb_spec y x) as [->|Hne].
  - exfalso. apply Hx. left. reflexivity.
  - rewrite IH; [reflexivity|]. intros H. apply Hx. right. assumption.
Qed.

Lemma list_remove_app_last (x : string) (xs : list string) :
  ~ In x xs -> list_remove x (xs ++ [x])%list = xs.
Proof.
  induction xs as [|y ys IH]; intros Hx; simpl.
  - rewrite String.eqb_refl. reflexivity.
  - destruct (String.eqb_spec y x) as [->|Hne].
    + exfalso. apply Hx. left. reflexivity.
    + rewrite IH; [reflexivity|]. intros H. apply Hx. right. assumption.
Qed.

Lemma list_remove_count (x y : string) (xs : list string) :
  count_occ string_dec (list_remove x xs) y =
    if string_dec y x then Nat.pred (count_occ string_dec xs x)
    else count_occ string_dec xs y.
Proof.
  induction xs as [|z zs IH]; simpl.
  - destruct (string_dec y x); reflexivity.
  - destruct (String.eqb_spec z x) as [->|Hzx].
    + destruct (string_dec x x) as [_|Hxx]; [|contradiction].
      destruct (string_dec y x) as [->|Hyx]; [reflexivity|].
      destruct (string_dec x y) as [->|_]; [contradiction|reflexivity].
    + simpl. rewrite IH.
      destruct (string_dec z x) as [Hzx'|_]; [contradiction|].
      destruct (string_dec y x) as [->|Hyx].
      * destruct (string_dec z x) as [?|_]; [contradiction|reflexivity].
      * reflexivity.
Qed.

(** X1.  Adding an option that is not yet required and resolving it again
    gives the list back. *)
Theorem RequiredOptions_add_then_resolve (option : string) (required_options : list string) :
  ~ In option required_options ->
  RequiredOptions_resolve option (RequiredOptions_add option required_options)
    = required_options.
Proof.
  intros Hnew. unfold RequiredOptions_add.
  rewrite (proj2 (str_mem_false _ _) Hnew). cbn [negb].
  unfold RequiredOptions_resolve.
  rewrite (proj2 (str_mem_In option (required_options ++ [option])%list)).
  - apply list_remove_app_last. exact Hnew.
  - apply in_or_app. right. left. reflexivity.
Qed.

Lemma RequiredOptions_add_then_resolve_witness :
  ~ In "proxy" ["ifile"; "directory"] /\
  RequiredOptions_resolve "proxy" (RequiredOptions_add "proxy" ["ifile"; "directory"])
    = ["ifile"; "directory"].
Proof.
  assert (H : ~ In "proxy" ["ifile"; "directory"]).
  { intros [H|[H|[]]]; discriminate H. }
  split; [exact H|].
  apply (RequiredOptions_add_then_resolve "proxy" ["ifile"; "directory"] H).
Defined.

(** X2.  [resolve] takes away one occurrence of the option and no more: its
    count goes down by one (and stays zero for an option that is not
    required), the counts of the other options stay. *)
Theorem RequiredOptions_resolve_count (option other : string) (required_options : list string) :
  count_occ string_dec (RequiredOptions_resolve option required_options) other =
    if string_dec other option
    then Nat.pred (count_occ string_dec required_options option)
    else count_occ string_dec required_options other.
Proof.
  unfold RequiredOptions_resolve.
  destruct (str_mem option required_options) eqn:E.
  - apply list_remove_count.
  - apply str_mem_false in E.
    destruct (string_dec other option) as [->|_]; [|reflexivity].
    rewrite (proj1 (count_occ_not_In string_dec required_options option) E).
    reflexivity.
Qed.

(** X3.  [add] makes the option required, keeps what was required, does
    nothing the second time, and never introduces a duplicate. *)
Theorem RequiredOptions_add_idempotent (option : string) (required_options : list string) :
  In option (RequiredOptions_add option required_options) /\
  (forall other, In other required_options ->
                 In other (RequiredOptions_add option required_options)) /\
  RequiredOptions_add option (RequiredOptions_add option required_options)
    = RequiredOptions_add option required_options /\
  (List.NoDup required_options ->
   List.NoDup (RequiredOptions_add option required_options)).
Proof.
  destruct (str_mem option required_options) eqn:E.
  - pose proof (proj1 (str_mem_In _ _) E) as Hin.
    assert (Hadd : RequiredOptions_add option required_options = required_options).
    { unfold RequiredOptions_add. rewrite E. reflexivity. }
    rewrite !Hadd. repeat split; tauto.
  - pose proof (proj1 (str_mem_false _ _) E) as Hout.
    assert (Hadd : RequiredOptions_add option required_options
                   = (required_options ++ [option])%list).
    { unfold RequiredOptions_add. rewrite E. reflexivity. }
    assert (Hin : In option (required_options ++ [option])%list).
    { apply in_or_app. right. left. reflexivity. }
    rewrite !Hadd. repeat split.
    + exact Hin.
    + intros other H. apply in_or_app. left. exact H.
    + unfold RequiredOptions_add.
      rewrite (proj2 (str_mem_In _ _) Hin). reflexivity.
    + intros Hnd. apply List.NoDup_app.
      * exact Hnd.
      * apply List.NoDup_cons; [intros []|apply List.NoDup_nil].
      * intros x Hx [<-|[]]. exact (Hout Hx).
Qed.

(** ** The rest of the script: the options of main *)

Lemma logged_nil (w : World) : logged w [] = w.
Proof. destruct w. unfold logged, set_log. simpl. rewrite app_nil_r. reflexivity. Qed.

Lemma logged_cons (w : World) (r : LogRecord) (rs : list LogRecord) :
  logged (set_log (fun l => (l ++ [r])%list) w) rs = logged w (r :: rs).
Proof. unfold logged, set_log. simpl. rewrite <- app_assoc. reflexivity. Qed.

Lemma logged_app (w : World) (rs rs' : list LogRecord) :
  logged (logged w rs) rs' = logged w (rs ++ rs')%list.
Proof. unfold logged, set_log. simpl. rewrite <- app_assoc. reflexivity. Qed.

Lemma option_classes (oa : string * string) :
  (is_ifile oa = true -> is_help oa = false /\ is_directory oa = false) /\
  (is_directory oa = true -> is_help oa = false /\ is_ifile oa = false).
Proof.
  unfold is_ifile, is_directory, is_help. split; intros H;
    apply str_mem_In in H; simpl in H;
    destruct H as [<-|[<-|[]]]; split; reflexivity.
Qed.

Lemma resolve_required_left (have_ifile have_directory : bool) :
  RequiredOptions_resolve "ifile" (required_left have_ifile have_directory)
    = required_left true have_directory /\
  RequiredOptions_resolve "directory" (required_left have_ifile have_directory)
    = required_left have_ifile true.
Proof. destruct have_ifile, have_directory; split; reflexivity. Qed.

(** The loop over the options when none of them asks for help: the last
    input file and the last directory are kept, each of them is no longer
    required, and every unknown option costs one help record. *)
Lemma read_opts_no_help (opts : list (string * string)) :
  forall (o : Options) (have_ifile have_directory : bool) (w : World),
    existsb is_help opts = false ->
    required_options o = required_left have_ifile have_directory ->
    read_opts opts o w =
      (Ok {| input_file := last_arg is_ifile opts (input_file o);
             directory := last_arg is_directory opts (directory o);
             required_options :=
               required_left (have_ifile || existsb is_ifile opts)
                             (have_directory || existsb is_directory opts) |},
       logged w (unknown_help opts)).
Proof.
  induction opts as [|[opt arg] opts IH]; intros o hi hd w Hhelp Hreq.
  - simpl. unfold ret, unknown_help. simpl. rewrite logged_nil, !orb_false_r, <- Hreq.
    destruct o. reflexivity.
  - cbn [existsb] in Hhelp. apply orb_false_iff in Hhelp as [Hh Hhelp].
    cbn [read_opts]. change (str_mem opt ["-h"; "--help"]) with (is_help (opt, arg)).
    rewrite Hh.
    change (str_mem opt ["-i"; "--ifile"]) with (is_ifile (opt, arg)).
    change (str_mem opt ["-d"; "--directory"]) with (is_directory (opt, arg)).
    destruct (option_classes (opt, arg)) as [Hi Hd].
    unfold unknown_help, last_arg. cbn [List.filter existsb fold_left].
    unfold is_unknown at 1. rewrite Hh. cbn [orb].
    destruct (is_ifile (opt, arg)) eqn:Ei.
    + destruct (Hi eq_refl) as [_ Ed]. rewrite Ed. cbn [negb orb snd].
      rewrite (IH _ true hd w Hhelp).
      * cbn [input_file directory]. rewrite orb_true_r. reflexivity.
      * cbn [required_options]. rewrite Hreq. apply resolve_required_left.
    + destruct (is_directory (opt, arg)) eqn:Ed.
      * cbn [negb orb snd].
        rewrite (IH _ hi true w Hhelp).
        -- cbn [input_file directory]. rewrite orb_true_r. reflexivity.
        -- cbn [required_options]. rewrite Hreq. apply resolve_required_left.
      * cbn [negb orb length repeat]. unfold bind, print_help, logging_info.
        rewrite (IH o hi hd _ Hhelp Hreq).
        fold (unknown_help opts). unfold unknown_help.
        rewrite logged_cons. reflexivity.
Qed.

(** The loop over the options when one of them asks for help: it ends in
    [sys.exit(0)], after at least one help record and nothing but help
    records. *)
Lemma read_opts_help (opts : list (string * string)) :
  forall (o : Options) (w : World),
    existsb is_help opts = true ->
    exists n,
      read_opts opts o w =
        (Raise (SystemExit 0), logged w (repeat (INFO, help_message) (S n))).
Proof.
  induction opts as [|[opt arg] opts IH]; intros o w Hhelp; [discriminate|].
  cbn [existsb] in Hhelp. cbn [read_opts].
  change (str_mem opt ["-h"; "--help"]) with (is_help (opt, arg)).
  destruct (is_help (opt, arg)) eqn:Eh.
  - exists 0%nat. reflexivity.
  - cbn [orb] in Hhelp.
    destruct (str_mem opt ["-i"; "--ifile"]); [apply IH; exact Hhelp|].
    destruct (str_mem opt ["-d"; "--directory"]); [apply IH; exact Hhelp|].
    unfold bind, print_help, logging_info.
    destruct (IH o (set_log (fun l => (l ++ [(INFO, help_message)])%list) w) Hhelp)
      as (n & ->).
    exists (S n). rewrite logged_cons. reflexivity.
Qed.

(** X4.  Without a help option, the loop of [main] over its options ends
    with the argument of the last [-i]/[--ifile] as input file and of the
    last [-d]/[--directory] as directory (the empty string when there is
    none), and with exactly the options that were not given still
    required. *)
Theorem main_options_last_wins (opts : list (string * string)) (w : World) :
  existsb is_help opts = false ->
  read_opts opts
    {| input_file := ""; directory := "";
       required_options := ["ifile"; "directory"] |} w =
    (Ok {| input_file := last_arg is_ifile opts "";
           directory := last_arg is_directory opts "";
           required_options :=
             required_left (existsb is_ifile opts) (existsb is_directory opts) |},
     logged w (unknown_help opts)).
Proof.
  intros Hhelp.
  exact (read_opts_no_help opts
           {| input_file := ""; directory := "";
              required_options := ["ifile"; "directory"] |}
           false false w Hhelp eq_refl).
Qed.

Lemma main_options_last_wins_witness :
  existsb is_help [("-i", "old.txt"); ("-d", "/data/out"); ("--ifile", "list.txt")] = false /\
  read_opts [("-i", "old.txt"); ("-d", "/data/out"); ("--ifile", "list.txt")]
    {| input_file := ""; directory := "";
       required_options := ["ifile"; "directory"] |}
    (operator_world "" always_200) =
    (Ok {| input_file := "list.txt"; directory := "/data/out"; required_options := [] |},
     logged (operator_world "" always_200) []).
Proof.
  split; [reflexivity|].
  exact (main_options_last_wins
           [("-i", "old.txt"); ("-d", "/data/out"); ("--ifile", "list.txt")]
           (operator_world "" always_200) eq_refl).
Defined.

Lemma options_resolved_required_left (have_ifile have_directory : bool) :
  options_resolved (required_left have_ifile have_directory)
    = have_ifile && have_directory.
Proof. destruct have_ifile, have_directory; reflexivity. Qed.

Lemma os_path_exists_eq (path : string) (w : World) :
  os_path_exists path w = (Ok (path_exists w path), w).
Proof. reflexivity. Qed.

Lemma logged_two (w : World) (a b : LogRecord) :
  set_log (fun l => (l ++ [b])%list) (set_log (fun l => (l ++ [a])%list) w)
    = logged w [a; b].
Proof. unfold logged, set_log. simpl. rewrite <- app_assoc. reflexivity. Qed.

(** How [main] starts when no option asks for help: the loop over the
    options has run, and the two checks come next. *)
Lemma main_no_help (validators_url : string -> bool) (status_codes : list Z)
    (opts : list (string * string)) (w : World) :
  existsb is_help opts = false ->
  main validators_url status_codes opts w =
    let w0 := logged w (unknown_help opts) in
    let input := last_arg is_ifile opts "" in
    let dir := last_arg is_directory opts "" in
    if negb (existsb is_ifile opts && existsb is_directory opts) then
      (Raise (SystemExit 1),
       logged w0 [(INFO, help_message);
                  (ERROR, "The following required options were not specified:"
                          +:+ String.concat " "
                                (required_left (existsb is_ifile opts)
                                               (existsb is_directory opts)))])
    else if negb (path_exists w input) || negb (path_exists w dir) then
      (Raise (SystemExit 1),
       logged w0 [(INFO, help_message);
                  (ERROR, "Input file or download directory don't exist")])
    else
      (text <- read_text input ;;
       session <- Session_new ;;
       futures <- for_each
         (fun url => submit (download validators_url url MAX_RETRY_FOR_SESSION
                               BACK_OFF_FACTOR (ERROR_CODES status_codes) session))
         (splitlines text) ;;
       for_each progress_indicator futures ;;;
       ret tt) w0.
Proof.
  intros Hhelp. unfold main. unfold bind at 1.
  rewrite (read_opts_no_help opts
               {| input_file := ""; directory := "";
                  required_options := ["ifile"; "directory"] |}
               false false w Hhelp eq_refl).
  cbn [orb].
  cbn [required_options input_file directory].
  rewrite options_resolved_required_left.
  destruct (existsb is_ifile opts && existsb is_directory opts); cbn [negb].
  - unfold bind at 1. rewrite os_path_exists_eq.
    unfold bind at 1. rewrite os_path_exists_eq.
    change (path_exists (logged w (unknown_help opts)))
      with (path_exists w).
    destruct (negb (path_exists w (last_arg is_ifile opts ""))
              || negb (path_exists w (last_arg is_directory opts ""))).
    + unfold bind, print_help, logging_info, logging_error, sys_exit, raise.
      rewrite logged_two. reflexivity.
    + reflexivity.
  - unfold bind, print_help, logging_info, logging_error, sys_exit, raise.
    rewrite logged_two. reflexivity.
Qed.

(** X5.  With [-h] or [--help] among the options, [main] ends in
    [sys.exit(0)] whatever else is given or missing; it has logged the help
    text (once more for every unknown option met before) and nothing else,
    and has touched neither the files, the sessions, the network nor the
    standard output. *)
Theorem main_help_exits_0 (validators_url : string -> bool) (status_codes : list Z)
    (opts : list (string * string)) (w : World) :
  existsb is_help opts = true ->
  exists n w',
    main validators_url status_codes opts w = (Raise (SystemExit 0), w') /\
    log w' = (log w ++ repeat (INFO, help_message) (S n))%list /\
    fs w' = fs w /\ sessions w' = sessions w /\
    wire w' = wire w /\ stdout w' = stdout w.
Proof.
  intros Hhelp.
  destruct (read_opts_help opts
              {| input_file := ""; directory := "";
                 required_options := ["ifile"; "directory"] |} w Hhelp) as (n & Hread).
  exists n. eexists. unfold main. unfold bind at 1. rewrite Hread.
  split; [reflexivity|]. repeat split.
Qed.

Lemma main_help_exits_0_witness :
  existsb is_help [("-i", "list.txt"); ("--help", "")] = true /\
  exists n w',
    main sample_validator requests_status_codes [("-i", "list.txt"); ("--help", "")]
      (operator_world "http://example.com/a.png" always_200) = (Raise (SystemExit 0), w') /\
    log w' = (log (operator_world "http://example.com/a.png" always_200)
              ++ repeat (INFO, help_message) (S n))%list /\
    fs w' = fs (operator_world "http://example.com/a.png" always_200) /\
    sessions w' = sessions (operator_world "http://example.com/a.png" always_200) /\
    wire w' = wire (operator_world "http://example.com/a.png" always_200) /\
    stdout w' = stdout (operator_world "http://example.com/a.png" always_200).
Proof.
  split; [reflexivity|].
  exact (main_help_exits_0 sample_validator requests_status_codes
           [("-i", "list.txt"); ("--help", "")]
           (operator_world "http://example.com/a.png" always_200) eq_refl).
Defined.

(** X6.  Without a help option and without an input file or without a
    directory among the options, [main] ends in [sys.exit(1)]: it logs the
    help text and one error that names the options still required, and
    starts nothing (no file is read, no session made, no request sent). *)
Theorem main_missing_option_exits_1 (validators_url : string -> bool)
    (status_codes : list Z) (opts : list (string * string)) (w : World) :
  existsb is_help opts = false ->
  existsb is_ifile opts && existsb is_directory opts = false ->
  main validators_url status_codes opts w =
    (Raise (SystemExit 1),
     logged w
       (unknown_help opts ++
        [(INFO, help_message);
         (ERROR, "The following required options were not specified:"
                 +:+ String.concat " "
                       (required_left (existsb is_ifile opts)
                                      (existsb is_directory opts)))])%list).
Proof.
  intros Hhelp Hmissing.
  rewrite (main_no_help _ _ _ _ Hhelp). cbv zeta. rewrite Hmissing. cbn [negb].
  rewrite logged_app. reflexivity.
Qed.

Lemma main_missing_option_witness :
  existsb is_help [("-i", "list.txt")] = false /\
  existsb is_ifile [("-i", "list.txt")] && existsb is_directory [("-i", "list.txt")] = false /\
  main sample_validator requests_status_codes [("-i", "list.txt")]
    (operator_world "http://example.com/a.png" always_200) =
    (Raise (SystemExit 1),
     logged (operator_world "http://example.com/a.png" always_200)
       [(INFO, help_message);
        (ERROR, "The following required options were not specified:directory")]).
Proof.
  split; [reflexivity|]. split; [reflexivity|].
  exact (main_missing_option_exits_1 sample_validator requests_status_codes
           [("-i", "list.txt")] (operator_world "http://example.com/a.png" always_200)
           eq_refl eq_refl).
Defined.

(** X8.  The check of the input file is [os.path.exists] only: when the
    input file given is a directory (and the download directory exists),
    [main] goes past its checks and the [open] of the list raises
    [IsADirectoryError]; no session has been made and no request sent. *)
Theorem main_input_is_directory (validators_url : string -> bool)
    (status_codes : list Z) (opts : list (string * string)) (w : World) :
  existsb is_help opts = false ->
  existsb is_ifile opts = true ->
  existsb is_directory opts = true ->
  last_arg is_ifile opts "" <> "" ->
  fs w !! resolve w (last_arg is_ifile opts "") = Some Dir ->
  path_exists w (last_arg is_directory opts "") = true ->
  main validators_url status_codes opts w =
    (Raise IsADirectoryError, logged w (unknown_help opts)).
Proof.
  intros Hhelp Hi Hd Hne Hdir Hpath.
  rewrite (main_no_help _ _ _ _ Hhelp). cbv zeta. rewrite Hi, Hd. cbn [andb negb].
  assert (Hin : path_exists w (last_arg is_ifile opts "") = true).
  { unfold path_exists. destruct (String.eqb_spec (last_arg is_ifile opts "") "");
      [contradiction|]. rewrite Hdir. reflexivity. }
  rewrite Hin, Hpath. cbn [negb orb].
  unfold bind at 1. unfold read_text.
  destruct (String.eqb_spec (last_arg is_ifile opts "") ""); [contradiction|].
  change (fs (logged w (unknown_help opts))) with (fs w).
  change (resolve (logged w (unknown_help opts))) with (resolve w).
  rewrite Hdir. reflexivity.
Qed.

Lemma main_input_is_directory_witness :
  fs (operator_world "" always_200) !! resolve (operator_world "" always_200) "/data/out"
    = Some Dir /\
  main sample_validator requests_status_codes
    [("-i", "/data/out"); ("-d", "/data/out")] (operator_world "" always_200) =
    (Raise IsADirectoryError, logged (operator_world "" always_200) []).
Proof.
  split; [reflexivity|].
  apply (main_input_is_directory sample_validator requests_status_codes
           [("-i", "/data/out"); ("-d", "/data/out")] (operator_world "" always_200)).
  - reflexivity.
  - reflexivity.
  - reflexivity.
  - discriminate.
  - reflexivity.
  - reflexivity.
Defined.


(** ** The rest of the script: what download leaves alone *)




(** How [main] goes on once its checks are passed and the list is read. *)
Lemma main_reads_list (validators_url : string -> bool) (status_codes : list Z)
    (opts : list (string * string)) (w : World) (text : string) :
  existsb is_help opts = false ->
  existsb is_ifile opts = true ->
  existsb is_directory opts = true ->
  last_arg is_ifile opts "" <> "" ->
  fs w !! resolve w (last_arg is_ifile opts "") = Some (File text) ->
  isascii text = true ->
  path_exists w (last_arg is_directory opts "") = true ->
  main validators_url status_codes opts w =
    (session <- Session_new ;;
     futures <- for_each
       (fun url => submit (download validators_url url MAX_RETRY_FOR_SESSION
                             BACK_OFF_FACTOR (ERROR_CODES status_codes) session))
       (splitlines text) ;;
     for_each progress_indicator futures ;;;
     ret tt) (logged w (unknown_help opts)).
Proof.
  intros Hhelp Hi Hd Hne Hfile Hascii Hpath.
  rewrite (main_no_help _ _ _ _ Hhelp). cbv zeta. rewrite Hi, Hd. cbn [andb negb].
  assert (Hin : path_exists w (last_arg is_ifile opts "") = true).
  { unfold path_exists. destruct (String.eqb_spec (last_arg is_ifile opts "") "");
      [contradiction|]. rewrite Hfile. reflexivity. }
  rewrite Hin, Hpath. cbn [negb orb].
  unfold bind at 1. unfold read_text.
  destruct (String.eqb_spec (last_arg is_ifile opts "") ""); [contradiction|].
  change (fs (logged w (unknown_help opts))) with (fs w).
  change (resolve (logged w (unknown_help opts))) with (resolve w).
  rewrite Hfile, Hascii. reflexivity.
Qed.



(** ** The rest of the script: the other ways through download *)

(** X10.  [session] defaults to [None]: a [download] of a valid URL without
    a session raises [AttributeError] at the first [session.mount]; the
    handler of [ConnectionError] does not take it, so it leaves [download]
    with nothing logged, sent or written. *)
Theorem download_without_session (validators_url : string -> bool)
    (url : string) (retries : Z) (bf : Q) (sfl : list Z) (w : World) :
  validators_url url = true ->
  download validators_url url retries bf sfl None w = (Raise AttributeError, w).
Proof.
  intros Hvalid. unfold download. rewrite Hvalid. reflexivity.
Qed.

Lemma download_without_session_witness :
  sample_validator "http://example.com/a.png" = true /\
  download sample_validator "http://example.com/a.png" MAX_RETRY_FOR_SESSION
    BACK_OFF_FACTOR
    (ERROR_CODES requests_status_codes) None (operator_world "" always_200)
    = (Raise AttributeError, operator_world "" always_200).
Proof.
  split; [reflexivity|].
  exact (download_without_session sample_validator "http://example.com/a.png"
           MAX_RETRY_FOR_SESSION BACK_OFF_FACTOR (ERROR_CODES requests_status_codes)
           (operator_world "" always_200) eq_refl).
Defined.

(** X11.  When every connection to the server breaks, [download] tries
    [retries] + 1 times, logs one error record that names the URL, and
    returns normally; no file is written. *)
Theorem download_connection_error_logged (validators_url : string -> bool)
    (url : string) (retries : Z) (bf : Q) (sfl : list Z)
    (l : nat) (s : Session) (w : World) :
  validators_url url = true ->
  sessions w !! l = Some s ->
  main_session s ->
  has_http_prefix url = true ->
  (forall n, (length (wire w) <= n)%nat -> network w n url = ConnFail) ->
  exists w',
    download validators_url url retries bf sfl (Some l) w = (Ok tt, w') /\
    log w' = (log w ++ [(ERROR, "The following URL returns Connection error: " +:+ url)])%list /\
    wire w' = (wire w ++ repeat url (S (Z.to_nat retries)))%list /\
    fs w' = fs w.
Proof.
  intros Hvalid Hs Hmain Hprefix Hall.
  rewrite (download_valid _ _ _ _ _ _ _ _ Hvalid Hs).
  rewrite (Session_get_broken
             {| total := retries; backoff_factor := bf; status_forcelist := sfl |}
             s l url w Hmain Hprefix Hall).
  cbn [Exn_eqb]. eexists. split; [reflexivity|]. repeat split.
Qed.

Lemma download_connection_error_witness :
  (forall n, (length (wire (operator_world "" always_broken)) <= n)%nat ->
     network (operator_world "" always_broken) n "http://example.com/a.png" = ConnFail) /\
  exists w',
    download sample_validator "http://example.com/a.png" MAX_RETRY_FOR_SESSION
      BACK_OFF_FACTOR
      (ERROR_CODES requests_status_codes) (Some 0%nat) (operator_world "" always_broken)
      = (Ok tt, w') /\
    log w' = (log (operator_world "" always_broken) ++
              [(ERROR, "The following URL returns Connection error: "
                       +:+ "http://example.com/a.png")])%list /\
    wire w' = (wire (operator_world "" always_broken)
               ++ repeat "http://example.com/a.png" (S (Z.to_nat MAX_RETRY_FOR_SESSION)))%list /\
    fs w' = fs (operator_world "" always_broken).
Proof.
  split; [intros n _; reflexivity|].
  apply (download_connection_error_logged sample_validator "http://example.com/a.png"
           MAX_RETRY_FOR_SESSION BACK_OFF_FACTOR (ERROR_CODES requests_status_codes)
           0%nat Session_init (operator_world "" always_broken)
           eq_refl eq_refl Session_init_main eq_refl).
  intros n _. reflexivity.
Defined.





(** ** The rest of the script: the index into the split URL *)

Lemma lower_ascii_slash (c : ascii) : lower_ascii c = slash -> c = slash.
Proof.
  destruct c as [[] [] [] [] [] [] [] []]; intros H; vm_compute in H;
    first [discriminate H | reflexivity].
Qed.

Lemma rpartition_None_cons (c : ascii) (s : string) :
  rpartition slash (String c s) = None ->
  c <> slash /\ rpartition slash s = None.
Proof.
  cbn [rpartition]. destruct (rpartition slash s) as [[? ?]|]; [discriminate|].
  destruct (Ascii.eqb_spec c slash); [discriminate|]. intros _. split; [assumption|reflexivity].
Qed.

(** A string without a slash does not start, whatever the case of its
    letters, with a prefix that has one. *)
Lemma no_slash_prefix (p : string) :
  forall s : string,
    String.prefix p (lower s) = true ->
    rpartition slash s = None ->
    rpartition slash p = None.
Proof.
  induction p as [|a p IH]; intros s Hp Hs; [reflexivity|].
  destruct s as [|c s]; [discriminate|].
  cbn [lower String.prefix] in Hp.
  destruct (ascii_dec a (lower_ascii c)) as [->|]; [|discriminate].
  apply rpartition_None_cons in Hs as [Hc Hs].
  cbn [rpartition]. rewrite (IH s Hp Hs).
  destruct (Ascii.eqb_spec (lower_ascii c) slash) as [E|]; [|reflexivity].
  apply lower_ascii_slash in E. contradiction.
Qed.

Lemma http_prefix_has_slash (url : string) :
  has_http_prefix url = true -> rpartition slash url <> None.
Proof.
  unfold has_http_prefix, startswith. intros H Hnone.
  apply orb_true_iff in H as [H|H];
    apply (no_slash_prefix _ _ H) in Hnone; discriminate.
Qed.

Lemma find_adapter_Raise (url : string) (d : list (string * HTTPAdapter)) (e : Exn) :
  find_adapter url d = Raise e -> e = InvalidSchema.
Proof.
  induction d as [|[prefix adapter] d IH]; cbn [find_adapter].
  - intros [= <-]. reflexivity.
  - destruct (startswith (lower url) (lower prefix)); [discriminate|exact IH].
Qed.

(** Nothing in the fetch indexes a list. *)
Lemma Session_send_not_IndexError (self : Session) (url : string) (w : World) :
  fst (Session_send self url w) <> Raise IndexError.
Proof.
  unfold Session_send, bind, lift.
  destruct (get_adapter self url) as [a|e] eqn:Ha.
  - destruct (adapter_send_cases a url w) as [(r & _ & ->)|[[_ ->]|[_ ->]]];
      [destruct (truncated r)| |]; discriminate.
  - apply find_adapter_Raise in Ha as ->. discriminate.
Qed.

Lemma resolve_redirects_not_IndexError (budget : nat) (self : Session) :
  forall (resp : Response) (w : World),
    fst (resolve_redirects budget self resp w) <> Raise IndexError.
Proof.
  induction budget as [|budget IH]; intros resp w; cbn [resolve_redirects];
    destruct (get_redirect_target resp) as [target|]; try discriminate.
  unfold bind. pose proof (Session_send_not_IndexError self target w) as Hsend.
  destruct (Session_send self target w) as [[r1|e] w1]; [apply IH|exact Hsend].
Qed.

(** X14.  On a session of [main], the index 1 into the split URL is there
    whenever [download] comes to it.  A URL with an http prefix has a slash,
    so that its split has two parts; a valid URL without such a prefix has
    no adapter, and [download] leaves with [InvalidSchema] before any
    request and any write.  So [download] never raises [IndexError]. *)
Theorem download_index_is_there (validators_url : string -> bool)
    (url : string) (retries : Z) (bf : Q) (sfl : list Z)
    (l : nat) (s : Session) (w : World) :
  sessions w !! l = Some s ->
  main_session s ->
  (has_http_prefix url = true ->
     exists before name, rsplit url slash = [before; name] /\
                         getitem (rsplit url slash) 1 = Ok name) /\
  (validators_url url = true -> has_http_prefix url = false ->
     download validators_url url retries bf sfl (Some l) w =
       (Raise InvalidSchema,
        remounted l s {| total := retries; backoff_factor := bf;
                         status_forcelist := sfl |} w)) /\
  fst (download validators_url url retries bf sfl (Some l) w) <> Raise IndexError.
Proof.
  intros Hs Hmain.
  assert (Hsplit : has_http_prefix url = true ->
            exists before name, rsplit url slash = [before; name] /\
                                getitem (rsplit url slash) 1 = Ok name).
  { intros Hprefix. pose proof (http_prefix_has_slash _ Hprefix) as Hslash.
    unfold rsplit. destruct (rpartition slash url) as [[before name]|];
      [|contradiction]. exists before, name. split; reflexivity. }
  split; [exact Hsplit|]. split.
  - intros Hvalid Hprefix.
    rewrite (download_valid _ _ _ _ _ _ _ _ Hvalid Hs).
    rewrite (Session_get_main _ _ _ _ _ Hmain), Hprefix. reflexivity.
  - destruct (validators_url url) eqn:Hvalid.
    2:{ unfold download. rewrite Hvalid. discriminate. }
    rewrite (download_valid _ _ _ _ _ _ _ _ Hvalid Hs).
    set (retry := {| total := retries; backoff_factor := bf; status_forcelist := sfl |}).
    assert (Hget : fst (Session_get (Some l) url (remounted l s retry w)) <> Raise IndexError
                   /\ (forall r, fst (Session_get (Some l) url (remounted l s retry w)) = Ok r ->
                         has_http_prefix url = true)).
    { rewrite (Session_get_main _ _ _ _ _ Hmain).
      destruct (has_http_prefix url); [|split; discriminate].
      split; [|reflexivity].
      destruct (adapter_send_cases {| max_retries := retry |} url (remounted l s retry w))
        as [(r & _ & ->)|[[_ ->]|[_ ->]]]; try discriminate.
      destruct (get_redirect_target r);
        [apply resolve_redirects_not_IndexError|destruct (truncated r); discriminate]. }
    destruct Hget as [Hno Hprefix].
    destruct (Session_get (Some l) url (remounted l s retry w)) as [[response|e] w2].
    + destruct (mem (status_code response) SPECIAL_ERROR_CODES); [discriminate|].
      destruct (Hsplit (Hprefix response eq_refl)) as (before & name & _ & Hname).
      unfold bind at 1. unfold lift. rewrite Hname.
      unfold bind.
      destruct (open_wb_cases name w2) as [(e & -> & Hin)| ->].
      * simpl in Hin. intuition (subst e; discriminate).
      * discriminate.
    + cbn [fst] in Hno. destruct e; try discriminate. contradiction.
Qed.

Lemma download_index_is_there_witness :
  (has_http_prefix "http://example.com/a.png" = true ->
     exists before name,
       rsplit "http://example.com/a.png" slash = [before; name] /\
       getitem (rsplit "http://example.com/a.png" slash) 1 = Ok name) /\
  (sample_validator "http://example.com/a.png" = true ->
   has_http_prefix "http://example.com/a.png" = false ->
     download sample_validator "http://example.com/a.png" MAX_RETRY_FOR_SESSION
       BACK_OFF_FACTOR (ERROR_CODES requests_status_codes) (Some 0%nat)
       (operator_world "" always_500) =
       (Raise InvalidSchema,
        remounted 0%nat Session_init
          {| total := MAX_RETRY_FOR_SESSION; backoff_factor := BACK_OFF_FACTOR;
             status_forcelist := ERROR_CODES requests_status_codes |}
          (operator_world "" always_500))) /\
  fst (download sample_validator "http://example.com/a.png" MAX_RETRY_FOR_SESSION
         BACK_OFF_FACTOR (ERROR_CODES requests_status_codes) (Some 0%nat)
         (operator_world "" always_500)) <> Raise IndexError.
Proof.
  exact (download_index_is_there sample_validator "http://example.com/a.png"
           MAX_RETRY_FOR_SESSION BACK_OFF_FACTOR (ERROR_CODES requests_status_codes)
           0%nat Session_init (operator_world "" always_500) eq_refl Session_init_main).
Defined.

(** ** The claims: where the files go *)

(** C1.  The directory given with [-d] is only tested for existence.  On
    any run of [main] that passes its checks, with a list of one URL that
    the validator accepts and that is answered at the first request with a
    kept, final status other than 403 and 404, the body is written under
    the URL's last path segment in the working directory, and that is the
    one change to the file system: the entry of that name in the directory
    given with [-d], when this is another place, is what it was. *)
Theorem C1_download_directory_is_ignored (validators_url : string -> bool)
    (status_codes : list Z) (opts : list (string * string)) (w : World)
    (text url before name : string) (response : Response) :
  existsb is_help opts = false ->
  existsb is_ifile opts = true ->
  existsb is_directory opts = true ->
  last_arg is_ifile opts "" <> "" ->
  fs w !! resolve w (last_arg is_ifile opts "") = Some (File text) ->
  isascii text = true ->
  splitlines text = [url] ->
  path_exists w (last_arg is_directory opts "") = true ->
  validators_url url = true ->
  has_http_prefix url = true ->
  network w (length (wire w)) url = Answer response ->
  kept (ERROR_CODES status_codes) response ->
  final response ->
  mem (status_code response) SPECIAL_ERROR_CODES = false ->
  rpartition slash url = Some (before, name) ->
  name <> "" -> name <> "." -> name <> ".." ->
  has_null name = false ->
  (String.length name <= NAME_MAX)%nat ->
  cwd w <> "" ->
  fs w !! cwd w = Some Dir ->
  fs w !! (cwd w +:+ "/" +:+ name) <> Some Dir ->
  exists w',
    main validators_url status_codes opts w = (Ok tt, w') /\
    fs w' = <[cwd w +:+ "/" +:+ name := File (content response)]> (fs w) /\
    wire w' = (wire w ++ [url])%list /\
    (resolve w (last_arg is_directory opts "" +:+ "/" +:+ name)
       <> cwd w +:+ "/" +:+ name ->
     fs w' !! resolve w (last_arg is_directory opts "" +:+ "/" +:+ name)
       = fs w !! resolve w (last_arg is_directory opts "" +:+ "/" +:+ name)).
Proof.
  intros Hhelp Hi Hd Hne Hfile Hascii Hlines Hpath Hvalid Hprefix Hnet Hkept
         Hfinal Hstatus Hurl Hname Hdot Hdots Hnull Hlen Hcwd Hdir Htarget.
  rewrite (main_reads_list _ _ _ _ _ Hhelp Hi Hd Hne Hfile Hascii Hpath).
  rewrite Hlines.
  unfold bind at 1. unfold Session_new.
  set (w0 := logged w (unknown_help opts)).
  set (l := fresh (dom (sessions w0))).
  set (w1 := set_sessions (fun h => <[l := Session_init]> h) w0).
  assert (Hs : sessions w1 !! l = Some Session_init)
    by (unfold w1; cbn [sessions set_sessions]; apply lookup_insert_eq).
  pose proof (Session_get_kept
                {| total := MAX_RETRY_FOR_SESSION; backoff_factor := BACK_OFF_FACTOR;
                   status_forcelist := ERROR_CODES status_codes |}
                Session_init l url w1 Session_init_main Hprefix 0%nat response) as Hget.
  assert (Hfetch :
    Session_get (Some l) url
      (remounted l Session_init
         {| total := MAX_RETRY_FOR_SESSION; backoff_factor := BACK_OFF_FACTOR;
            status_forcelist := ERROR_CODES status_codes |} w1)
    = (Ok response,
       sent (remounted l Session_init
               {| total := MAX_RETRY_FOR_SESSION; backoff_factor := BACK_OFF_FACTOR;
                  status_forcelist := ERROR_CODES status_codes |} w1) url 1)).
  { apply Hget; try assumption.
    - cbn [total]. unfold MAX_RETRY_FOR_SESSION. lia.
    - intros i Hlt. lia.
    - change (network w1) with (network w). change (wire w1) with (wire w).
      rewrite Nat.add_0_r. exact Hnet. }
  destruct (download_writes_in_cwd validators_url url before name
              MAX_RETRY_FOR_SESSION BACK_OFF_FACTOR (ERROR_CODES status_codes)
              l Session_init w1 response _ Hvalid Hs Hfetch Hstatus Hurl Hname Hdot
              Hdots Hnull Hlen Hcwd Hdir Htarget) as (w2 & Hrun & Hfs & _ & Hwire).
  cbn [for_each]. unfold bind at 1. unfold bind at 1. unfold submit at 1.
  rewrite Hrun. cbn [for_each]. unfold progress_indicator, sys_stdout_write, bind, ret.
  eexists. split; [reflexivity|].
  cbn [fs wire set_stdout]. rewrite Hfs, Hwire.
  change (fs w1) with (fs w).
  split; [reflexivity|]. split; [reflexivity|].
  intros Hother. apply lookup_insert_ne. intros E. apply Hother. symmetry. exact E.
Qed.

Lemma C1_download_directory_witness :
  exists w',
    main sample_validator requests_status_codes
      [("-i", "list.txt"); ("-d", "/data/out")]
      (operator_world "http://example.com/a.png" always_200) = (Ok tt, w') /\
    fs w' = <["/home/op/a.png" := File "PNG"]>
              (fs (operator_world "http://example.com/a.png" always_200)) /\
    wire w' = ["http://example.com/a.png"] /\
    fs w' !! "/data/out/a.png" = None.
Proof.
  destruct (C1_download_directory_is_ignored sample_validator requests_status_codes
              [("-i", "list.txt"); ("-d", "/data/out")]
              (operator_world "http://example.com/a.png" always_200)
              "http://example.com/a.png" "http://example.com/a.png"
              "http://example.com" "a.png"
              {| status_code := 200; content := "PNG"; retry_after := false;
                 location := None; truncated := false |})
    as (w' & Hrun & Hfs & Hwire & Hout).
  - reflexivity.
  - reflexivity.
  - reflexivity.
  - discriminate.
  - reflexivity.
  - reflexivity.
  - reflexivity.
  - reflexivity.
  - reflexivity.
  - reflexivity.
  - reflexivity.
  - split; reflexivity.
  - split; reflexivity.
  - reflexivity.
  - reflexivity.
  - discriminate.
  - discriminate.
  - discriminate.
  - reflexivity.
  - vm_compute. lia.
  - discriminate.
  - reflexivity.
  - vm_compute. discriminate.
  - exists w'. split; [exact Hrun|]. split; [exact Hfs|]. split; [exact Hwire|].
    transitivity (fs (operator_world "http://example.com/a.png" always_200)
                    !! "/data/out/a.png"); [|reflexivity].
    apply Hout. vm_compute. discriminate.
Defined.
